(** * Rolling restart of a Postgres cluster: [runRestart] and its two variants

    A shallow embedding of the [postgres restart] command: the entry point
    [runRestart], the leased variant [restartMachinesCluster] and the legacy
    variant [restartNomadCluster].

    The command is a sequence of calls to collaborators (the web API, the
    agent, the flaps client, the per-node Postgres client) and of lines
    written to the terminal.  A run is modelled as a computation over the
    history of such calls: every collaborator is an oracle that answers from
    the history so far, and every call is appended to the history together
    with its answer.  Properties of a run are then properties of its final
    history and of the error it returns. *)

From stdpp Require Import gmap strings list fin_maps.

Open Scope string_scope.
Open Scope list_scope.

(** The line feed that ends every line the command prints. *)
Definition LF : string := String (Ascii.ascii_of_nat 10) EmptyString.

(** ** Go errors *)

(** [errors.New(s)] and what [fmt.Errorf] builds around a [%w] operand. *)
Inductive error : Type :=
| errorString (s : string)
| wrapError (msg : string) (err : error).

Definition Error (e : error) : string :=
  match e with
  | errorString s => s
  | wrapError msg _ => msg
  end.

Definition Unwrap (e : error) : option error :=
  match e with
  | errorString _ => None
  | wrapError _ err => Some err
  end.

(** [fmt.Errorf(prefix + "%w", err)]: the message is formatted in full and
    the operand is kept as the wrapped error. *)
Definition Errorf_w (prefix : string) (err : error) : error :=
  wrapError (prefix +:+ Error err) err.

(** [fmt.Errorf("can't build tunnel for %s: %s", slug, err)]: both operands
    are only printed, nothing is wrapped. *)
Definition Errorf_tunnel (slug : string) (err : error) : error :=
  errorString ("can't build tunnel for " +:+ slug +:+ ": " +:+ Error err).

(** A Go result [(value, err)]. *)
Inductive outcome (A : Type) : Type :=
| Done (a : A)
| Fail (e : error).
Arguments Done {A} a.
Arguments Fail {A} e.

Definition of_error (r : option error) : outcome unit :=
  match r with
  | None => Done tt
  | Some e => Fail e
  end.

(** ** The api, agent, flaps and flypg values the command handles *)

Record OrganizationBasic : Type := { Slug : string }.

(** [IsPostgresApp] is a method of the api package; its answer is carried
    with the app. *)
Record AppCompact : Type := {
  Name : string;
  PlatformVersion : string;
  Organization : OrganizationBasic;
  IsPostgresApp : bool
}.

Record Machine : Type := {
  ID : string;
  State : string;
  PrivateIP : string
}.

Record AllocationStatus : Type := {
  Alloc_ID : string;
  Alloc_PrivateIP : string
}.

Record AppStatus : Type := { Allocations : list AllocationStatus }.

Record LeaseData : Type := { Nonce : string }.
Record MachineLease : Type := { Data : LeaseData }.

(** Handles returned by the agent; the number tells handles apart. *)
Inductive AgentClient : Type := agentClient (n : nat).
Inductive Dialer : Type := tunnelDialer (n : nat).

(** [flypg.NewFromInstance(address, dialer)] *)
Record Client : Type := NewFromInstance {
  client_address : string;
  client_dialer : Dialer
}.

(** What [runRestart] reads from its context. *)
Record Context : Type := { NameFromContext : string }.

(** ** Histories *)

Inductive event : Type :=
| EvGetAppCompact (appName : string) (r : outcome AppCompact)
| EvHasRequiredVersionOnNomad (app : AppCompact) (cluster standalone : string)
    (r : option error)
| EvAgentEstablish (r : outcome AgentClient)
| EvAgentDialer (a : AgentClient) (slug : string) (r : outcome Dialer)
| EvFetchLeader (app : AppCompact) (d : Dialer) (r : outcome Machine)
| EvHasRequiredVersionOnMachines (leader : Machine) (cluster standalone : string)
    (r : option error)
| EvFlapsEstablishForApp (app : AppCompact) (r : option error)
| EvFlapsList (state : string) (r : outcome (list Machine))
| EvFlapsGetLease (machineID : string) (ttl : option Z) (r : outcome MachineLease)
| EvGetAppStatus (appName : string) (showCompleted : bool) (r : outcome AppStatus)
| EvRestartNodePG (c : Client) (r : option error)
| EvFprintf (line : string).

Definition trace : Type := list event.

(** The collaborators.  Each answers from the history of the run so far, so
    that a collaborator may answer the same question differently at
    different times.  [range_order] is the order in which Go's [range]
    visits the entries of a map. *)
Record World : Type := {
  api_GetAppCompact : trace -> string -> outcome AppCompact;
  api_GetAppStatus : trace -> string -> bool -> outcome AppStatus;
  pg_hasRequiredVersionOnNomad :
    trace -> AppCompact -> string -> string -> option error;
  pg_hasRequiredVersionOnMachines :
    trace -> Machine -> string -> string -> option error;
  pg_fetchLeader : trace -> AppCompact -> Dialer -> outcome Machine;
  agent_Establish : trace -> outcome AgentClient;
  agent_Dialer : trace -> AgentClient -> string -> outcome Dialer;
  flaps_EstablishForApp : trace -> AppCompact -> option error;
  flaps_List : trace -> string -> outcome (list Machine);
  flaps_GetLease : trace -> string -> option Z -> outcome MachineLease;
  flypg_RestartNodePG : trace -> Client -> option error;
  range_order : trace -> gmap string Machine -> list (string * Machine)
}.

(** Go visits every entry of a map once, in an order of its choosing. *)
Definition range_ok (w : World) : Prop :=
  forall (h : trace) (m : gmap string Machine),
    range_order w h m ≡ₚ map_to_list m.

(** ** Computations over a history *)

Definition M (A : Type) : Type := trace -> trace * outcome A.

Definition ret {A : Type} (a : A) : M A := fun h => (h, Done a).

Definition throw {A : Type} (e : error) : M A := fun h => (h, Fail e).

Definition bind {A B : Type} (m : M A) (f : A -> M B) : M B :=
  fun h =>
    match m h with
    | (h', Done a) => f a h'
    | (h', Fail e) => (h', Fail e)
    end.

(** [if err != nil { return wrap(err) }] *)
Definition or_return {A : Type} (m : M A) (wrap : error -> error) : M A :=
  fun h =>
    match m h with
    | (h', Done a) => (h', Done a)
    | (h', Fail e) => (h', Fail (wrap e))
    end.

Definition call {A : Type} (oracle : trace -> outcome A)
    (ev : outcome A -> event) : M A :=
  fun h => let r := oracle h in (h ++ [ev r], r).

Definition call_err (oracle : trace -> option error)
    (ev : option error -> event) : M unit :=
  fun h => let r := oracle h in (h ++ [ev r], of_error r).

Definition pick {A : Type} (oracle : trace -> A) : M A :=
  fun h => (h, Done (oracle h)).

Definition Fprintf (line : string) : M unit :=
  fun h => (h ++ [EvFprintf line], Done tt).

Notation "'do' x <- m ; k" := (bind m (fun x => k))
  (at level 10, x name, m at level 100, k at level 200,
   format "'[v' 'do'  x  <-  m ; '/' k ']'").

(** ** The command *)

Section Command.

Variable w : World.

Definition GetAppCompact (appName : string) : M AppCompact :=
  call (fun h => api_GetAppCompact w h appName) (EvGetAppCompact appName).

Definition GetAppStatus (appName : string) (showCompleted : bool) : M AppStatus :=
  call (fun h => api_GetAppStatus w h appName showCompleted)
       (EvGetAppStatus appName showCompleted).

Definition hasRequiredVersionOnNomad (app : AppCompact)
    (cluster standalone : string) : M unit :=
  call_err (fun h => pg_hasRequiredVersionOnNomad w h app cluster standalone)
           (EvHasRequiredVersionOnNomad app cluster standalone).

Definition hasRequiredVersionOnMachines (leader : Machine)
    (cluster standalone : string) : M unit :=
  call_err (fun h => pg_hasRequiredVersionOnMachines w h leader cluster standalone)
           (EvHasRequiredVersionOnMachines leader cluster standalone).

Definition fetchLeader (app : AppCompact) (d : Dialer) : M Machine :=
  call (fun h => pg_fetchLeader w h app d) (EvFetchLeader app d).

Definition Establish : M AgentClient :=
  call (agent_Establish w) EvAgentEstablish.

Definition AgentDialer (a : AgentClient) (slug : string) : M Dialer :=
  call (fun h => agent_Dialer w h a slug) (EvAgentDialer a slug).

Definition EstablishForApp (app : AppCompact) : M unit :=
  call_err (fun h => flaps_EstablishForApp w h app) (EvFlapsEstablishForApp app).

Definition List (state : string) : M (list Machine) :=
  call (fun h => flaps_List w h state) (EvFlapsList state).

Definition GetLease (machineID : string) (ttl : option Z) : M MachineLease :=
  call (fun h => flaps_GetLease w h machineID ttl) (EvFlapsGetLease machineID ttl).

Definition RestartNodePG (c : Client) : M unit :=
  call_err (fun h => flypg_RestartNodePG w h c) (EvRestartNodePG c).

(** [fmt.Sprintf("[%s]", ip)] *)
Definition bracketed (ip : string) : string := "[" +:+ ip +:+ "]".

(** The two steps that build the tunnel, as all three call sites write
    them. *)
Definition establishDialer (app : AppCompact) : M Dialer :=
  do agentclient <- or_return Establish (Errorf_w "can't establish agent ") ;
  or_return (AgentDialer agentclient (Slug (Organization app)))
            (Errorf_tunnel (Slug (Organization app))).

(** [for _, machine := range out { lease, err := GetLease(...); ...;
    machines[lease.Data.Nonce] = machine }] *)
Fixpoint acquireLeases (out : list Machine) (machines : gmap string Machine)
    : M (gmap string Machine) :=
  match out with
  | [] => ret machines
  | machine :: rest =>
      do lease <- or_return (GetLease (ID machine) (Some 40%Z))
                            (Errorf_w "failed to obtain lease: ") ;
      acquireLeases rest (<[Nonce (Data lease) := machine]> machines)
  end.

(** [for lease, machine := range machines { ... RestartNodePG ... }], over
    the entries in the order the range visits them. *)
Fixpoint restartMachines (d : Dialer) (entries : list (string * Machine)) : M unit :=
  match entries with
  | [] => ret tt
  | (lease, machine) :: rest =>
      do _ <- Fprintf (" Restarting " +:+ ID machine +:+ " with lease " +:+ lease +:+ LF) ;
      let pgclient := NewFromInstance (bracketed (PrivateIP machine)) d in
      do _ <- or_return (RestartNodePG pgclient)
                        (Errorf_w "failed to restart postgres on node: ") ;
      restartMachines d rest
  end.

(** The leased variant.  The test [len(out) == 0] stands after the lease
    loop, as in the source; the order of the range over [machines] is
    chosen when the range starts. *)
Definition restartMachinesCluster (ctx : Context) (app : AppCompact) : M unit :=
  do _ <- EstablishForApp app ;
  do out <- or_return (List "started") (Errorf_w "machines could not be retrieved ") ;
  do _ <- Fprintf ("Acquiring lease on postgres cluster" +:+ LF) ;
  do machines <- acquireLeases out ∅ ;
  if decide (length out = 0) then throw (errorString "no machines found") else
  do d <- establishDialer app ;
  do _ <- Fprintf ("Restarting Postgres" +:+ LF) ;
  do entries <- pick (fun h => range_order w h machines) ;
  do _ <- restartMachines d entries ;
  Fprintf ("Restart complete" +:+ LF).

(** [for _, vm := range vms { ... RestartNodePG ... }] *)
Fixpoint restartVMs (d : Dialer) (vms : list AllocationStatus) : M unit :=
  match vms with
  | [] => ret tt
  | vm :: rest =>
      do _ <- Fprintf (" Restarting " +:+ Alloc_ID vm +:+ LF) ;
      let pgclient := NewFromInstance (bracketed (Alloc_PrivateIP vm)) d in
      do _ <- or_return (RestartNodePG pgclient)
                        (Errorf_w "failed to restart postgres on node: ") ;
      restartVMs d rest
  end.

(** The legacy variant: no leases, the allocations in the order the app
    status reports them. *)
Definition restartNomadCluster (ctx : Context) (app : AppCompact) : M unit :=
  do status <- or_return (GetAppStatus (Name app) false) (Errorf_w "get app status: ") ;
  let vms := [] ++ Allocations status in
  if decide (length vms = 0) then throw (errorString "no vms found") else
  do d <- establishDialer app ;
  do _ <- Fprintf ("Restarting Postgres" +:+ LF) ;
  do _ <- restartVMs d vms ;
  Fprintf ("Restart complete" +:+ LF).

(** The entry point.  The [switch] on the platform version has no default
    case. *)
Definition runRestart (ctx : Context) : M unit :=
  let MinPostgresHaVersion := "0.0.20" in
  let appName := NameFromContext ctx in
  do app <- or_return (GetAppCompact appName) (Errorf_w "get app: ") ;
  if negb (IsPostgresApp app) then
    throw (errorString ("app " +:+ Name app +:+ " is not a Postgres app"))
  else if String.eqb (PlatformVersion app) "nomad" then
    do _ <- hasRequiredVersionOnNomad app MinPostgresHaVersion MinPostgresHaVersion ;
    restartNomadCluster ctx app
  else if String.eqb (PlatformVersion app) "machines" then
    do d <- establishDialer app ;
    do leader <- or_return (fetchLeader app d) (Errorf_w "can't fetch leader: ") ;
    do _ <- hasRequiredVersionOnMachines leader MinPostgresHaVersion MinPostgresHaVersion ;
    restartMachinesCluster ctx app
  else ret tt.

End Command.

(** ** What a history shows *)

(** The error a call answered with, if it failed. *)
Definition failure (ev : event) : option error :=
  match ev with
  | EvGetAppCompact _ (Fail e)
  | EvAgentEstablish (Fail e)
  | EvAgentDialer _ _ (Fail e)
  | EvFetchLeader _ _ (Fail e)
  | EvFlapsList _ (Fail e)
  | EvFlapsGetLease _ _ (Fail e)
  | EvGetAppStatus _ _ (Fail e) => Some e
  | EvHasRequiredVersionOnNomad _ _ _ r
  | EvHasRequiredVersionOnMachines _ _ _ r
  | EvFlapsEstablishForApp _ r
  | EvRestartNodePG _ r => r
  | _ => None
  end.

(** The error the caller of [runRestart] gets when the call [ev] fails with
    [c]: what the call site wraps around the cause. *)
Definition surfaced (ev : event) (c : error) : error :=
  match ev with
  | EvGetAppCompact _ _ => Errorf_w "get app: " c
  | EvAgentEstablish _ => Errorf_w "can't establish agent " c
  | EvAgentDialer _ slug _ => Errorf_tunnel slug c
  | EvFetchLeader _ _ _ => Errorf_w "can't fetch leader: " c
  | EvFlapsList _ _ => Errorf_w "machines could not be retrieved " c
  | EvFlapsGetLease _ _ _ => Errorf_w "failed to obtain lease: " c
  | EvGetAppStatus _ _ _ => Errorf_w "get app status: " c
  | EvRestartNodePG _ _ => Errorf_w "failed to restart postgres on node: " c
  | _ => c
  end.

(** The apps the run resolved. *)
Definition resolved (t : trace) : list AppCompact :=
  omap (fun ev => match ev with
                  | EvGetAppCompact _ (Done app) => Some app
                  | _ => None
                  end) t.

(** Calls of the version gate, with their answers. *)
Definition version_gate (t : trace) : list (option error) :=
  omap (fun ev => match ev with
                  | EvHasRequiredVersionOnNomad _ _ _ r
                  | EvHasRequiredVersionOnMachines _ _ _ r => Some r
                  | _ => None
                  end) t.

(** Incompatibilities the version gate reported. *)
Definition gate_failures (t : trace) : list error :=
  omap (fun ev => match ev with
                  | EvHasRequiredVersionOnNomad _ _ _ r
                  | EvHasRequiredVersionOnMachines _ _ _ r => r
                  | _ => None
                  end) t.

(** Calls that build the tunnel: to the agent, and for the dialer. *)
Definition agent_calls (t : trace) : list (outcome AgentClient) :=
  omap (fun ev => match ev with
                  | EvAgentEstablish r => Some r
                  | _ => None
                  end) t.

Definition tunnel_calls (t : trace) : list (outcome Dialer) :=
  omap (fun ev => match ev with
                  | EvAgentDialer _ _ r => Some r
                  | _ => None
                  end) t.

(** The dialers the run obtained, oldest first. *)
Definition dialers (t : trace) : list Dialer :=
  omap (fun ev => match ev with
                  | EvAgentDialer _ _ (Done d) => Some d
                  | _ => None
                  end) t.

(** Membership as the run resolved it: the machines listed (leased
    variant), the allocations reported (legacy variant). *)
Definition listed (t : trace) : list (list Machine) :=
  omap (fun ev => match ev with
                  | EvFlapsList _ (Done out) => Some out
                  | _ => None
                  end) t.

Definition reported (t : trace) : list (list AllocationStatus) :=
  omap (fun ev => match ev with
                  | EvGetAppStatus _ _ (Done status) => Some (Allocations status)
                  | _ => None
                  end) t.

(** The sizes of the memberships the run resolved, of either kind. *)
Definition memberships (t : trace) : list nat :=
  omap (fun ev => match ev with
                  | EvFlapsList _ (Done out) => Some (length out)
                  | EvGetAppStatus _ _ (Done status) =>
                      Some (length (Allocations status))
                  | _ => None
                  end) t.

(** Membership resolution returned zero nodes. *)
Definition membership_empty (t : trace) : bool :=
  existsb (Nat.eqb 0) (memberships t).

(** Lease calls: the machine ID asked for, with the answer. *)
Definition lease_calls (t : trace) : list (string * outcome MachineLease) :=
  omap (fun ev => match ev with
                  | EvFlapsGetLease machineID _ r => Some (machineID, r)
                  | _ => None
                  end) t.

(** Leases granted: machine ID and token, in the order of the grants. *)
Definition granted (t : trace) : list (string * string) :=
  omap (fun ev => match ev with
                  | EvFlapsGetLease machineID _ (Done lease) =>
                      Some (machineID, Nonce (Data lease))
                  | _ => None
                  end) t.

(** Lease calls that were refused: machine ID and cause. *)
Definition refused (t : trace) : list (string * error) :=
  omap (fun ev => match ev with
                  | EvFlapsGetLease machineID _ (Fail e) => Some (machineID, e)
                  | _ => None
                  end) t.

(** Restart commands sent, in the order they were sent. *)
Definition restarts (t : trace) : list Client :=
  omap (fun ev => match ev with
                  | EvRestartNodePG c _ => Some c
                  | _ => None
                  end) t.

(** Restart commands that failed: the client and the cause. *)
Definition failed_restarts (t : trace) : list (Client * error) :=
  omap (fun ev => match ev with
                  | EvRestartNodePG c (Some e) => Some (c, e)
                  | _ => None
                  end) t.

(** Calls that failed, with their causes. *)
Definition failures (t : trace) : list (event * error) :=
  omap (fun ev => match failure ev with
                  | Some c => Some (ev, c)
                  | None => None
                  end) t.

(** The map [restartMachinesCluster] builds from the machines listed and
    the tokens granted to them, in that order: a later entry with the same
    token replaces an earlier one. *)
Definition lease_map (entries : list (string * Machine)) : gmap string Machine :=
  foldl (fun machines '(nonce, machine) => <[nonce := machine]> machines) ∅ entries.

(** The client a machine, or a legacy vm, is restarted through. *)
Definition machine_client (d : Dialer) (machine : Machine) : Client :=
  NewFromInstance (bracketed (PrivateIP machine)) d.

Definition vm_client (d : Dialer) (vm : AllocationStatus) : Client :=
  NewFromInstance (bracketed (Alloc_PrivateIP vm)) d.

(** ** Scripted worlds, for examples *)

Definition org : OrganizationBasic := {| Slug := "personal" |}.

Definition pgtest (platform : string) (postgres : bool) : AppCompact :=
  {| Name := "pgtest"; PlatformVersion := platform;
     Organization := org; IsPostgresApp := postgres |}.

Definition machineA : Machine := {| ID := "A"; State := "started"; PrivateIP := "fdaa::a" |}.
Definition machineB : Machine := {| ID := "B"; State := "started"; PrivateIP := "fdaa::b" |}.
Definition machineC : Machine := {| ID := "C"; State := "started"; PrivateIP := "fdaa::c" |}.

Definition vmA : AllocationStatus := {| Alloc_ID := "A"; Alloc_PrivateIP := "fdaa::a" |}.
Definition vmB : AllocationStatus := {| Alloc_ID := "B"; Alloc_PrivateIP := "fdaa::b" |}.
Definition vmC : AllocationStatus := {| Alloc_ID := "C"; Alloc_PrivateIP := "fdaa::c" |}.

(** A world that answers every call from a fixed script.  The agent hands
    out a fresh handle at every call (the length of the history). *)
Definition scripted (app : AppCompact) (out : list Machine)
    (vms : list AllocationStatus) (gate : option error)
    (lease : string -> outcome MachineLease)
    (restart : string -> option error) : World :=
  {| api_GetAppCompact := fun _ _ => Done app;
     api_GetAppStatus := fun _ _ _ => Done {| Allocations := vms |};
     pg_hasRequiredVersionOnNomad := fun _ _ _ _ => gate;
     pg_hasRequiredVersionOnMachines := fun _ _ _ _ => gate;
     pg_fetchLeader := fun _ _ _ => Done machineA;
     agent_Establish := fun h => Done (agentClient (length h));
     agent_Dialer := fun h _ _ => Done (tunnelDialer (length h));
     flaps_EstablishForApp := fun _ _ => None;
     flaps_List := fun _ _ => Done out;
     flaps_GetLease := fun _ machineID _ => lease machineID;
     flypg_RestartNodePG := fun _ c => restart (client_address c);
     range_order := fun _ machines => map_to_list machines |}.

Definition grant (nonce : string) : outcome MachineLease :=
  Done {| Data := {| Nonce := nonce |} |}.

(** Every lease is granted, with the machine ID as part of the token. *)
Definition lease_all (machineID : string) : outcome MachineLease :=
  grant ("nonce-" +:+ machineID).

(** Every lease is granted, all with one and the same token. *)
Definition lease_same (machineID : string) : outcome MachineLease :=
  grant "nonce".

(** The lease on one machine is refused. *)
Definition lease_but (denied machineID : string) : outcome MachineLease :=
  if String.eqb machineID denied then Fail (errorString "lease denied")
  else lease_all machineID.

Definition restart_all (address : string) : option error := None.

Definition restart_but (down address : string) : option error :=
  if String.eqb address down then Some (errorString "unreachable") else None.

Definition ctx0 : Context := {| NameFromContext := "pgtest" |}.

Definition incompatible : error := errorString "image version is too old".

(** The worlds of the examples. *)

(** "pgtest" is not a Postgres app. *)
Definition world_not_postgres : World :=
  scripted (pgtest "machines" false) [machineA] [] None lease_all restart_all.

(** "pgtest" runs on a platform the command does not know. *)
Definition world_other_platform : World :=
  scripted (pgtest "kubernetes" true) [machineA] [vmA] None lease_all restart_all.

(** The version gate refuses the cluster, on either platform. *)
Definition world_old_machines : World :=
  scripted (pgtest "machines" true) [machineA; machineB; machineC] []
           (Some incompatible) lease_all restart_all.

Definition world_old_nomad : World :=
  scripted (pgtest "nomad" true) [] [vmA; vmB; vmC]
           (Some incompatible) lease_all restart_all.

(** A healthy cluster of three, on either platform. *)
Definition world_machines : World :=
  scripted (pgtest "machines" true) [machineA; machineB; machineC] []
           None lease_all restart_all.

Definition world_nomad : World :=
  scripted (pgtest "nomad" true) [] [vmA; vmB; vmC] None lease_all restart_all.

(** A cluster with no member, on either platform. *)
Definition world_empty_machines : World :=
  scripted (pgtest "machines" true) [] [] None lease_all restart_all.

Definition world_empty_nomad : World :=
  scripted (pgtest "nomad" true) [] [] None lease_all restart_all.

(** The lease on one machine is refused. *)
Definition world_lease_refused (denied : string) : World :=
  scripted (pgtest "machines" true) [machineA; machineB; machineC] []
           None (lease_but denied) restart_all.

(** All leases come back with the same token. *)
Definition world_same_token : World :=
  scripted (pgtest "machines" true) [machineA; machineB] [] None
           lease_same restart_all.

(** Node B cannot be reached, on either platform. *)
Definition world_nomad_B_down : World :=
  scripted (pgtest "nomad" true) [] [vmA; vmB; vmC] None lease_all
           (restart_but "[fdaa::b]").

Definition world_machines_B_down : World :=
  scripted (pgtest "machines" true) [machineA; machineB; machineC] [] None
           lease_all (restart_but "[fdaa::b]").

(** ** The runs the command can make

    The histories of [runRestart] and of its parts, case by case.  The
    lemmas below show that every run is one of these; the properties of a
    run are then read off its case. *)

Definition acquiring_line : string := "Acquiring lease on postgres cluster" +:+ LF.
Definition restarting_line : string := "Restarting Postgres" +:+ LF.
Definition complete_line : string := "Restart complete" +:+ LF.

Definition machine_line (entry : string * Machine) : string :=
  " Restarting " +:+ ID entry.2 +:+ " with lease " +:+ entry.1 +:+ LF.

Definition vm_line (vm : AllocationStatus) : string :=
  " Restarting " +:+ Alloc_ID vm +:+ LF.

(** The steps of a restart loop: the line printed and the client called. *)
Definition machine_steps (d : Dialer) (entries : list (string * Machine))
    : list (string * Client) :=
  (fun entry => (machine_line entry, machine_client d entry.2)) <$> entries.

Definition vm_steps (d : Dialer) (vms : list AllocationStatus)
    : list (string * Client) :=
  (fun vm => (vm_line vm, vm_client d vm)) <$> vms.

(** Leases granted one after the other. *)
Definition lease_events (gr : list (Machine * MachineLease)) : trace :=
  (fun g => EvFlapsGetLease (ID g.1) (Some 40%Z) (Done g.2)) <$> gr.

(** The entries stored for granted leases: token and machine. *)
Definition tokens (gr : list (Machine * MachineLease)) : list (string * Machine) :=
  (fun g => (Nonce (Data g.2), g.1)) <$> gr.

(** Steps that all succeeded. *)
Definition restarted (steps : list (string * Client)) : trace :=
  flat_map (fun s => [EvFprintf s.1; EvRestartNodePG s.2 None]) steps.

(** The steps a run set out to take in its restart loop: on nomad, over the
    allocations reported; on machines, over the entries of the lease map in
    the order the range visits them. *)
Definition restart_plan (w : World) (t : trace) (steps : list (string * Client))
    : Prop :=
  (exists d vms, reported t = [vms] /\ steps = vm_steps d vms)
  \/ (exists d hx gr,
        listed t = [gr.*1]
        /\ lease_calls t = (fun g => (ID g.1, Done g.2)) <$> gr
        /\ steps = machine_steps d (range_order w hx (lease_map (tokens gr)))).

Inductive dial_run (app : AppCompact) : trace -> outcome Dialer -> Prop :=
| dial_no_agent e :
    dial_run app [EvAgentEstablish (Fail e)]
             (Fail (Errorf_w "can't establish agent " e))
| dial_no_tunnel a e :
    dial_run app
             [EvAgentEstablish (Done a);
              EvAgentDialer a (Slug (Organization app)) (Fail e)]
             (Fail (Errorf_tunnel (Slug (Organization app)) e))
| dial_ok a d :
    dial_run app
             [EvAgentEstablish (Done a);
              EvAgentDialer a (Slug (Organization app)) (Done d)]
             (Done d).

Inductive lease_run (out : list Machine) (machines : gmap string Machine)
    : trace -> outcome (gmap string Machine) -> Prop :=
| lease_all_granted gr :
    gr.*1 = out ->
    lease_run out machines (lease_events gr)
              (Done (foldl (fun m '(nonce, machine) => <[nonce := machine]> m)
                           machines (tokens gr)))
| lease_refused gr machine rest e :
    out = gr.*1 ++ machine :: rest ->
    lease_run out machines
              (lease_events gr ++ [EvFlapsGetLease (ID machine) (Some 40%Z) (Fail e)])
              (Fail (Errorf_w "failed to obtain lease: " e)).

Inductive loop_run (steps : list (string * Client)) : trace -> outcome unit -> Prop :=
| loop_complete :
    loop_run steps (restarted steps) (Done tt)
| loop_failed before s rest e :
    steps = before ++ s :: rest ->
    loop_run steps
             (restarted before ++ [EvFprintf s.1; EvRestartNodePG s.2 (Some e)])
             (Fail (Errorf_w "failed to restart postgres on node: " e)).

Inductive machines_run (w : World) (app : AppCompact)
    : trace -> outcome unit -> Prop :=
| machines_no_flaps e :
    machines_run w app [EvFlapsEstablishForApp app (Some e)] (Fail e)
| machines_no_list e :
    machines_run w app
      [EvFlapsEstablishForApp app None; EvFlapsList "started" (Fail e)]
      (Fail (Errorf_w "machines could not be retrieved " e))
| machines_no_lease out evs e :
    lease_run out ∅ evs (Fail e) ->
    machines_run w app
      ([EvFlapsEstablishForApp app None; EvFlapsList "started" (Done out);
        EvFprintf acquiring_line] ++ evs)
      (Fail e)
| machines_none :
    machines_run w app
      [EvFlapsEstablishForApp app None; EvFlapsList "started" (Done []);
       EvFprintf acquiring_line]
      (Fail (errorString "no machines found"))
| machines_no_dialer gr evs e :
    gr ≠ [] ->
    dial_run app evs (Fail e) ->
    machines_run w app
      ([EvFlapsEstablishForApp app None; EvFlapsList "started" (Done gr.*1);
        EvFprintf acquiring_line] ++ lease_events gr ++ evs)
      (Fail e)
| machines_restarting gr a d hx evs r :
    gr ≠ [] ->
    loop_run (machine_steps d (range_order w hx (lease_map (tokens gr)))) evs r ->
    machines_run w app
      ([EvFlapsEstablishForApp app None; EvFlapsList "started" (Done gr.*1);
        EvFprintf acquiring_line] ++ lease_events gr
       ++ [EvAgentEstablish (Done a);
           EvAgentDialer a (Slug (Organization app)) (Done d);
           EvFprintf restarting_line]
       ++ evs
       ++ match r with Done _ => [EvFprintf complete_line] | Fail _ => [] end)
      r.

Inductive nomad_run (app : AppCompact) : trace -> outcome unit -> Prop :=
| nomad_no_status e :
    nomad_run app [EvGetAppStatus (Name app) false (Fail e)]
              (Fail (Errorf_w "get app status: " e))
| nomad_none status :
    Allocations status = [] ->
    nomad_run app [EvGetAppStatus (Name app) false (Done status)]
              (Fail (errorString "no vms found"))
| nomad_no_dialer status evs e :
    Allocations status ≠ [] ->
    dial_run app evs (Fail e) ->
    nomad_run app ([EvGetAppStatus (Name app) false (Done status)] ++ evs) (Fail e)
| nomad_restarting status a d evs r :
    Allocations status ≠ [] ->
    loop_run (vm_steps d (Allocations status)) evs r ->
    nomad_run app
      ([EvGetAppStatus (Name app) false (Done status);
        EvAgentEstablish (Done a);
        EvAgentDialer a (Slug (Organization app)) (Done d);
        EvFprintf restarting_line]
       ++ evs
       ++ match r with Done _ => [EvFprintf complete_line] | Fail _ => [] end)
      r.

Inductive restart_run (w : World) (ctx : Context) : trace -> outcome unit -> Prop :=
| run_no_app e :
    restart_run w ctx [EvGetAppCompact (NameFromContext ctx) (Fail e)]
                (Fail (Errorf_w "get app: " e))
| run_not_postgres app :
    IsPostgresApp app = false ->
    restart_run w ctx [EvGetAppCompact (NameFromContext ctx) (Done app)]
                (Fail (errorString ("app " +:+ Name app +:+ " is not a Postgres app")))
| run_nomad_gate app e :
    IsPostgresApp app = true ->
    PlatformVersion app = "nomad" ->
    restart_run w ctx
      [EvGetAppCompact (NameFromContext ctx) (Done app);
       EvHasRequiredVersionOnNomad app "0.0.20" "0.0.20" (Some e)]
      (Fail e)
| run_nomad app evs r :
    IsPostgresApp app = true ->
    PlatformVersion app = "nomad" ->
    nomad_run app evs r ->
    restart_run w ctx
      ([EvGetAppCompact (NameFromContext ctx) (Done app);
        EvHasRequiredVersionOnNomad app "0.0.20" "0.0.20" None] ++ evs)
      r
| run_machines_no_dialer app evs e :
    IsPostgresApp app = true ->
    PlatformVersion app = "machines" ->
    dial_run app evs (Fail e) ->
    restart_run w ctx
      ([EvGetAppCompact (NameFromContext ctx) (Done app)] ++ evs) (Fail e)
| run_machines_no_leader app a d e :
    IsPostgresApp app = true ->
    PlatformVersion app = "machines" ->
    restart_run w ctx
      [EvGetAppCompact (NameFromContext ctx) (Done app);
       EvAgentEstablish (Done a);
       EvAgentDialer a (Slug (Organization app)) (Done d);
       EvFetchLeader app d (Fail e)]
      (Fail (Errorf_w "can't fetch leader: " e))
| run_machines_gate app a d leader e :
    IsPostgresApp app = true ->
    PlatformVersion app = "machines" ->
    restart_run w ctx
      [EvGetAppCompact (NameFromContext ctx) (Done app);
       EvAgentEstablish (Done a);
       EvAgentDialer a (Slug (Organization app)) (Done d);
       EvFetchLeader app d (Done leader);
       EvHasRequiredVersionOnMachines leader "0.0.20" "0.0.20" (Some e)]
      (Fail e)
| run_machines app a d leader evs r :
    IsPostgresApp app = true ->
    PlatformVersion app = "machines" ->
    machines_run w app evs r ->
    restart_run w ctx
      ([EvGetAppCompact (NameFromContext ctx) (Done app);
        EvAgentEstablish (Done a);
        EvAgentDialer a (Slug (Organization app)) (Done d);
        EvFetchLeader app d (Done leader);
        EvHasRequiredVersionOnMachines leader "0.0.20" "0.0.20" None] ++ evs)
      r
| run_other_platform app :
    IsPostgresApp app = true ->
    PlatformVersion app ≠ "nomad" ->
    PlatformVersion app ≠ "machines" ->
    restart_run w ctx [EvGetAppCompact (NameFromContext ctx) (Done app)] (Done tt).

(** ** More of what a history shows: the arguments of the calls *)

(** The app names looked up. *)
Definition app_lookups (t : trace) : list string :=
  omap (fun ev => match ev with
                  | EvGetAppCompact appName _ => Some appName
                  | _ => None
                  end) t.

(** The minimum versions the version gate was asked with. *)
Definition gate_calls (t : trace) : list (string * string) :=
  omap (fun ev => match ev with
                  | EvHasRequiredVersionOnNomad _ cluster standalone _
                  | EvHasRequiredVersionOnMachines _ cluster standalone _ =>
                      Some (cluster, standalone)
                  | _ => None
                  end) t.

(** What the version gate was asked about: an app on nomad, a machine on
    machines. *)
Definition nomad_gate_subjects (t : trace) : list AppCompact :=
  omap (fun ev => match ev with
                  | EvHasRequiredVersionOnNomad app _ _ _ => Some app
                  | _ => None
                  end) t.

Definition machines_gate_subjects (t : trace) : list Machine :=
  omap (fun ev => match ev with
                  | EvHasRequiredVersionOnMachines leader _ _ _ => Some leader
                  | _ => None
                  end) t.

(** Calls of [fetchLeader], and the leaders it returned. *)
Definition leader_calls (t : trace) : list (AppCompact * Dialer) :=
  omap (fun ev => match ev with
                  | EvFetchLeader app d _ => Some (app, d)
                  | _ => None
                  end) t.

Definition leaders (t : trace) : list Machine :=
  omap (fun ev => match ev with
                  | EvFetchLeader _ _ (Done leader) => Some leader
                  | _ => None
                  end) t.

(** The agent clients the run obtained, and what it asked dialers with. *)
Definition agents (t : trace) : list AgentClient :=
  omap (fun ev => match ev with
                  | EvAgentEstablish (Done a) => Some a
                  | _ => None
                  end) t.

Definition dial_requests (t : trace) : list (AgentClient * string) :=
  omap (fun ev => match ev with
                  | EvAgentDialer a slug _ => Some (a, slug)
                  | _ => None
                  end) t.

(** The arguments of the flaps and app status calls. *)
Definition flaps_establishes (t : trace) : list AppCompact :=
  omap (fun ev => match ev with
                  | EvFlapsEstablishForApp app _ => Some app
                  | _ => None
                  end) t.

Definition list_filters (t : trace) : list string :=
  omap (fun ev => match ev with
                  | EvFlapsList state _ => Some state
                  | _ => None
                  end) t.

Definition lease_ttls (t : trace) : list (option Z) :=
  omap (fun ev => match ev with
                  | EvFlapsGetLease _ ttl _ => Some ttl
                  | _ => None
                  end) t.

Definition status_calls (t : trace) : list (string * bool) :=
  omap (fun ev => match ev with
                  | EvGetAppStatus appName showCompleted _ =>
                      Some (appName, showCompleted)
                  | _ => None
                  end) t.

(** The lines printed, in order. *)
Definition printed (t : trace) : list string :=
  omap (fun ev => match ev with
                  | EvFprintf line => Some line
                  | _ => None
                  end) t.

(** ** The status command: [renderMachineStatus]

    The command reads the app and its machines and renders two tables.  Its
    calls are of another kind than those of the restart command, and are
    kept in a history of their own. *)

(** The fields of [api.AppCompact] and [api.Machine], and the method
    [FullImageRef], that the tables show and the records above do not
    carry. *)
Record ApiFields : Type := {
  Hostname : AppCompact -> string;
  Region : Machine -> string;
  FullImageRef : Machine -> string;
  CreatedAt : Machine -> string;
  UpdatedAt : Machine -> string
}.

Inductive status_event : Type :=
| SEvEstablishForApp (app : AppCompact) (r : option error)
| SEvListActive (r : outcome (list Machine))
| SEvVerticalTable (title : string) (objects : list (list string))
    (cols : list string) (r : option error)
| SEvTable (title : string) (rows : list (list string))
    (cols : list string) (r : option error).

Record StatusWorld : Type := {
  st_EstablishForApp : list status_event -> AppCompact -> option error;
  st_ListActive : list status_event -> outcome (list Machine);
  render_VerticalTable :
    list status_event -> string -> list (list string) -> list string -> option error;
  render_Table :
    list status_event -> string -> list (list string) -> list string -> option error
}.

Definition app_cols : list string := ["Name"; "Owner"; "Hostname"; "Platform"].

Definition machine_cols : list string :=
  ["ID"; "State"; "Region"; "Image"; "Created"; "Updated"].

Section Status.

Variable f : ApiFields.
Variable sw : StatusWorld.

Definition app_row (app : AppCompact) : list string :=
  [Name app; Slug (Organization app); Hostname f app; PlatformVersion app].

Definition machine_row (machine : Machine) : list string :=
  [ID machine; State machine; Region f machine; FullImageRef f machine;
   CreatedAt f machine; UpdatedAt f machine].

(** [for _, machine := range machines { rows = append(rows, ...) }] *)
Fixpoint appendRows (machines : list Machine) (rows : list (list string))
    : list (list string) :=
  match machines with
  | [] => rows
  | machine :: rest => appendRows rest (rows ++ [machine_row machine])
  end.

(** The result is the named result [err]; the error of [render.Table] is
    assigned to the blank identifier. *)
Definition renderMachineStatus (app : AppCompact) (h : list status_event)
    : list status_event * option error :=
  let r1 := st_EstablishForApp sw h app in
  let h1 := h ++ [SEvEstablishForApp app r1] in
  match r1 with
  | Some err => (h1, Some err)
  | None =>
      let r2 := st_ListActive sw h1 in
      let h2 := h1 ++ [SEvListActive r2] in
      match r2 with
      | Fail err => (h2, Some err)
      | Done machines =>
          let obj := [app_row app] in
          let r3 := render_VerticalTable sw h2 "App" obj app_cols in
          let h3 := h2 ++ [SEvVerticalTable "App" obj app_cols r3] in
          match r3 with
          | Some err => (h3, Some err)
          | None =>
              let rows := appendRows machines [] in
              let r4 := render_Table sw h3 "" rows machine_cols in
              (h3 ++ [SEvTable "" rows machine_cols r4], None)
          end
      end
  end.

End Status.

(** The tables a history of the status command shows as rendered: title,
    rows, columns and the answer of the renderer. *)
Definition app_tables (t : list status_event)
    : list (string * list (list string) * list string * option error) :=
  omap (fun ev => match ev with
                  | SEvVerticalTable title objects cols r =>
                      Some (title, objects, cols, r)
                  | _ => None
                  end) t.

Definition machine_tables (t : list status_event)
    : list (string * list (list string) * list string * option error) :=
  omap (fun ev => match ev with
                  | SEvTable title rows cols r => Some (title, rows, cols, r)
                  | _ => None
                  end) t.

(** The machines the status command listed. *)
Definition active (t : list status_event) : list (list Machine) :=
  omap (fun ev => match ev with
                  | SEvListActive (Done machines) => Some machines
                  | _ => None
                  end) t.

(** A status world that answers from a fixed script, and fields for the
    examples. *)
Definition status_scripted (establish : option error)
    (machines : outcome (list Machine)) (table_app table_machines : option error)
    : StatusWorld :=
  {| st_EstablishForApp := fun _ _ => establish;
     st_ListActive := fun _ => machines;
     render_VerticalTable := fun _ _ _ _ => table_app;
     render_Table := fun _ _ _ _ => table_machines |}.

Definition fields0 : ApiFields :=
  {| Hostname := fun app => Name app +:+ ".fly.dev";
     Region := fun _ => "ams";
     FullImageRef := fun machine => "flyio/postgres:" +:+ ID machine;
     CreatedAt := fun _ => "2022-09-01T00:00:00Z";
     UpdatedAt := fun _ => "2022-09-02T00:00:00Z" |}.

Definition broken_pipe : error := errorString "write: broken pipe".

(** Two more worlds: "pgtest" on an unknown platform and not a Postgres
    app; and a healthy machines cluster in which node C, the first the
    range visits, cannot be reached. *)
Definition world_other_not_postgres : World :=
  scripted (pgtest "kubernetes" false) [machineA] [vmA] None lease_all restart_all.


(** The error a call of the status command answered with, the machines
    table apart, whose error the command does not look at. *)
Definition status_failure (ev : status_event) : option error :=
  match ev with
  | SEvEstablishForApp _ r => r
  | SEvListActive (Fail e) => Some e
  | SEvVerticalTable _ _ _ r => r
  | _ => None
  end.

Definition status_failures (t : list status_event) : list (status_event * error) :=
  omap (fun ev => match status_failure ev with
                  | Some e => Some (ev, e)
                  | None => None
                  end) t.

(** * Every run is one of the runs above *)

Section Runs.

Variable w : World.

Lemma establishDialer_run (app : AppCompact) (h : trace) :
  exists evs r,
    establishDialer w app h = (h ++ evs, r) /\ dial_run app evs r.
Proof.
  unfold establishDialer, bind, or_return, Establish, AgentDialer, call.
  destruct (agent_Establish w h) as [a|e] eqn:Ha.
  - destruct (agent_Dialer w (h ++ [EvAgentEstablish (Done a)]) a
                (Slug (Organization app))) as [d|e] eqn:Hd.
    + eexists _, _. rewrite <- app_assoc. split; [reflexivity|]. constructor.
    + eexists _, _. rewrite <- app_assoc. split; [reflexivity|]. constructor.
  - eexists _, _. split; [reflexivity|]. constructor.
Qed.

Lemma acquireLeases_run (out : list Machine) :
  forall (machines : gmap string Machine) (h : trace),
  exists evs r,
    acquireLeases w out machines h = (h ++ evs, r) /\ lease_run out machines evs r.
Proof.
  induction out as [|machine rest IH]; intros machines h.
  - exists [], (Done machines). rewrite app_nil_r. split; [reflexivity|].
    apply (lease_all_granted [] machines []). reflexivity.
  - cbn [acquireLeases]. unfold bind at 1, or_return, GetLease, call.
    destruct (flaps_GetLease w h (ID machine) (Some 40%Z)) as [lease|e] eqn:Hl.
    + destruct (IH (<[Nonce (Data lease) := machine]> machines)
                   (h ++ [EvFlapsGetLease (ID machine) (Some 40%Z) (Done lease)]))
        as (evs & r & Hrun & Hshape).
      rewrite Hrun. rewrite <- app_assoc.
      eexists _, _. split; [reflexivity|].
      inversion Hshape as [gr Hgr|gr m' rest' e Hout]; subst.
      * apply (lease_all_granted (machine :: gr.*1) machines ((machine, lease) :: gr)).
        reflexivity.
      * apply (lease_refused (machine :: gr.*1 ++ m' :: rest') machines
                 ((machine, lease) :: gr) m' rest' e). reflexivity.
    + exists [EvFlapsGetLease (ID machine) (Some 40%Z) (Fail e)], 
        (Fail (Errorf_w "failed to obtain lease: " e)).
      split; [reflexivity|].
      apply (lease_refused (machine :: rest) machines [] machine rest e). reflexivity.
Qed.

(** One turn of either restart loop, then the rest of the loop by the
    induction hypothesis [IH]. *)
Ltac loop_turn IH first others c :=
  let e := fresh "e" in
  let evs := fresh "evs" in
  let r := fresh "r" in
  let Hrun := fresh "Hrun" in
  let Hshape := fresh "Hshape" in
  let before := fresh "before" in
  let s' := fresh "s" in
  let rest' := fresh "rest" in
  let Hsteps := fresh "Hsteps" in
  unfold bind at 1, Fprintf at 1;
  unfold bind at 1, or_return, RestartNodePG, call_err;
  match goal with
  | |- context [flypg_RestartNodePG ?w ?h' c] =>
      destruct (flypg_RestartNodePG w h' c) as [e|]; cbn [of_error]
  end;
  [ eexists _, _; rewrite <- app_assoc; split; [reflexivity|];
    apply (loop_failed (first :: others) [] first others e); reflexivity
  | match goal with
    | |- context [(?h' ++ [EvFprintf ?l]) ++ [EvRestartNodePG c None]] =>
        destruct (IH ((h' ++ [EvFprintf l]) ++ [EvRestartNodePG c None]))
          as (evs & r & Hrun & Hshape)
    end;
    rewrite Hrun, <- !app_assoc;
    eexists _, _; split; [reflexivity|];
    inversion Hshape as [|before s' rest' e Hsteps]; subst;
    [ apply (loop_complete (first :: others))
    | apply (loop_failed (first :: others) (first :: before) s' rest' e);
      cbn [app]; f_equal; exact Hsteps ] ].

Lemma restartMachines_run (d : Dialer) (entries : list (string * Machine)) :
  forall h : trace,
  exists evs r,
    restartMachines w d entries h = (h ++ evs, r)
    /\ loop_run (machine_steps d entries) evs r.
Proof.
  induction entries as [|[lease machine] rest IH]; intros h.
  - exists [], (Done tt). rewrite app_nil_r. split; [reflexivity|].
    apply (loop_complete []).
  - cbn [restartMachines machine_steps fmap list_fmap].
    loop_turn IH (machine_line (lease, machine), machine_client d machine)
              (machine_steps d rest)
              (NewFromInstance (bracketed (PrivateIP machine)) d).
Qed.

Lemma restartVMs_run (d : Dialer) (vms : list AllocationStatus) :
  forall h : trace,
  exists evs r,
    restartVMs w d vms h = (h ++ evs, r) /\ loop_run (vm_steps d vms) evs r.
Proof.
  induction vms as [|vm rest IH]; intros h.
  - exists [], (Done tt). rewrite app_nil_r. split; [reflexivity|].
    apply (loop_complete []).
  - cbn [restartVMs vm_steps fmap list_fmap].
    loop_turn IH (vm_line vm, vm_client d vm) (vm_steps d rest)
              (NewFromInstance (bracketed (Alloc_PrivateIP vm)) d).
Qed.

(** Tidy a history into the shape [h ++ evs] and name [evs]. *)
Ltac close_run :=
  cbn [of_error]; rewrite <- ?app_assoc; cbn [app];
  eexists _, _; split; [reflexivity|].

Lemma restartMachinesCluster_run (ctx : Context) (app : AppCompact) (h : trace) :
  exists evs r,
    restartMachinesCluster w ctx app h = (h ++ evs, r) /\ machines_run w app evs r.
Proof.
  unfold restartMachinesCluster.
  unfold bind at 1, EstablishForApp, call_err.
  destruct (flaps_EstablishForApp w h app) as [e|]; cbn [of_error].
  { close_run. constructor. }
  unfold bind at 1, or_return, List, call.
  destruct (flaps_List w _ "started") as [out|e].
  2: { close_run. constructor. }
  unfold bind at 1, Fprintf at 1. unfold bind at 1.
  match goal with
  | |- context [acquireLeases w out ∅ ?h'] =>
      destruct (acquireLeases_run out ∅ h') as (evs & r & Hrun & Hshape)
  end.
  rewrite Hrun.
  inversion Hshape as [gr Hgr|gr m' rest' e Hout]; subst.
  2: { close_run. apply (machines_no_lease w app _ _ _ Hshape). }
  destruct gr as [|g gr].
  { cbn [fmap list_fmap length decide]. close_run. apply machines_none. }
  destruct (decide (length ((g :: gr).*1) = 0)) as [Hlen|_]; [discriminate Hlen|].
  unfold bind at 1.
  match goal with
  | |- context [establishDialer w app ?h'] =>
      destruct (establishDialer_run app h') as (evd & rd & Hd & Hdial)
  end.
  rewrite Hd.
  destruct rd as [d|e].
  2: { close_run.
       match goal with
       | |- machines_run _ _ (_ :: _ :: _ :: ?l) _ =>
           change l with (lease_events (g :: gr) ++ evd)
       end.
       eapply (machines_no_dialer w app (g :: gr)); [discriminate|exact Hdial]. }
  inversion Hdial as [| |a d' Hevd]; subst.
  unfold bind at 1, Fprintf at 1. unfold bind at 1, pick.
  unfold bind at 1.
  match goal with
  | |- context [restartMachines w d (range_order w ?hx ?m) ?h'] =>
      destruct (restartMachines_run d (range_order w hx m) h')
        as (evl & rl & Hl & Hloop);
      rewrite Hl;
      pose proof (machines_restarting w app (g :: gr) a d hx evl rl) as Hcase
  end.
  specialize (Hcase ltac:(discriminate) Hloop).
  destruct rl as [[]|e]; unfold Fprintf; cbn [of_error];
    rewrite <- ?app_assoc; cbn [Datatypes.app];
    eexists _, _; (split; [|exact Hcase]);
    rewrite <- ?app_assoc; cbn [Datatypes.app]; rewrite ?app_nil_r; reflexivity.
Qed.

Lemma restartNomadCluster_run (ctx : Context) (app : AppCompact) (h : trace) :
  exists evs r,
    restartNomadCluster w ctx app h = (h ++ evs, r) /\ nomad_run app evs r.
Proof.
  unfold restartNomadCluster.
  unfold bind at 1, or_return, GetAppStatus, call.
  destruct (api_GetAppStatus w h (Name app) false) as [status|e].
  2: { close_run. constructor. }
  cbn [Datatypes.app].
  destruct (Allocations status) as [|vm vms] eqn:Hvms.
  { cbn [length decide]. close_run. apply nomad_none. exact Hvms. }
  destruct (decide (length (vm :: vms) = 0)) as [Hlen|_]; [discriminate Hlen|].
  unfold bind at 1.
  match goal with
  | |- context [establishDialer w app ?h'] =>
      destruct (establishDialer_run app h') as (evd & rd & Hd & Hdial)
  end.
  rewrite Hd.
  destruct rd as [d|e].
  2: { close_run.
       apply (nomad_no_dialer app status evd e); [congruence|exact Hdial]. }
  inversion Hdial as [| |a d' Hevd]; subst.
  unfold bind at 1, Fprintf at 1. unfold bind at 1.
  match goal with
  | |- context [restartVMs w d (vm :: vms) ?h'] =>
      destruct (restartVMs_run d (vm :: vms) h') as (evl & rl & Hl & Hloop);
      rewrite Hl
  end.
  rewrite <- Hvms in Hloop.
  pose proof (nomad_restarting app status a d evl rl) as Hcase.
  specialize (Hcase ltac:(congruence) Hloop).
  destruct rl as [[]|e]; unfold Fprintf; cbn [of_error];
    rewrite <- ?app_assoc; cbn [Datatypes.app];
    eexists _, _; (split; [|exact Hcase]);
    rewrite <- ?app_assoc; cbn [Datatypes.app]; rewrite ?app_nil_r; reflexivity.
Qed.

(** Every run of the command, from the empty history, is one of the runs
    of [restart_run]. *)
Lemma runRestart_run (ctx : Context) (t : trace) (r : outcome unit) :
  runRestart w ctx [] = (t, r) -> restart_run w ctx t r.
Proof.
  unfold runRestart.
  unfold bind at 1, or_return, GetAppCompact, call. cbn [Datatypes.app].
  destruct (api_GetAppCompact w [] (NameFromContext ctx)) as [app|e].
  2: { intros [= <- <-]. constructor. }
  destruct (IsPostgresApp app) eqn:Hpg; cbn [negb].
  2: { intros [= <- <-]. apply run_not_postgres. exact Hpg. }
  destruct (String.eqb (PlatformVersion app) "nomad") eqn:Hnomad.
  { apply String.eqb_eq in Hnomad.
    unfold bind at 1, hasRequiredVersionOnNomad, call_err. cbn [Datatypes.app].
    match goal with
    | |- context [pg_hasRequiredVersionOnNomad w ?h' app ?c ?s] =>
        destruct (pg_hasRequiredVersionOnNomad w h' app c s) as [e|]; cbn [of_error]
    end.
    { intros [= <- <-]. apply run_nomad_gate; assumption. }
    match goal with
    | |- context [restartNomadCluster w ctx app ?h'] =>
        destruct (restartNomadCluster_run ctx app h') as (evs & r' & Hrun & Hshape)
    end.
    rewrite Hrun. intros [= <- <-].
    apply (run_nomad w ctx app evs r'); assumption. }
  apply String.eqb_neq in Hnomad.
  destruct (String.eqb (PlatformVersion app) "machines") eqn:Hmachines.
  2: { apply String.eqb_neq in Hmachines. intros [= <- <-].
       apply run_other_platform; assumption. }
  apply String.eqb_eq in Hmachines.
  unfold bind at 1.
  match goal with
  | |- context [establishDialer w app ?h'] =>
      destruct (establishDialer_run app h') as (evd & rd & Hd & Hdial)
  end.
  rewrite Hd.
  destruct rd as [d|e].
  2: { intros [= <- <-]. apply (run_machines_no_dialer w ctx app evd e); assumption. }
  inversion Hdial as [| |a d' Hevd]; subst.
  cbn [Datatypes.app].
  unfold bind at 1, or_return, fetchLeader, call. cbn [Datatypes.app].
  match goal with
  | |- context [pg_fetchLeader w ?h' app d] =>
      destruct (pg_fetchLeader w h' app d) as [leader|e]
  end.
  2: { intros [= <- <-]. apply run_machines_no_leader; assumption. }
  unfold bind at 1, hasRequiredVersionOnMachines, call_err. cbn [Datatypes.app].
  match goal with
  | |- context [pg_hasRequiredVersionOnMachines w ?h' leader ?c ?s] =>
      destruct (pg_hasRequiredVersionOnMachines w h' leader c s) as [e|];
        cbn [of_error]
  end.
  { intros [= <- <-]. apply run_machines_gate; assumption. }
  match goal with
  | |- context [restartMachinesCluster w ctx app ?h'] =>
      destruct (restartMachinesCluster_run ctx app h') as (evs & r' & Hrun & Hshape)
  end.
  rewrite Hrun. intros [= <- <-].
  apply (run_machines w ctx app a d leader evs r'); assumption.
Qed.

End Runs.

(** * Reading a history *)

Lemma omap_lease_events_none {B : Type} (f : event -> option B)
    (gr : list (Machine * MachineLease)) :
  (forall machineID ttl lease, f (EvFlapsGetLease machineID ttl (Done lease)) = None) ->
  omap f (lease_events gr) = [].
Proof.
  intros Hf. induction gr as [|g gr IH]; [reflexivity|].
  cbn [lease_events fmap list_fmap omap list_omap]. rewrite Hf. exact IH.
Qed.

Lemma omap_lease_events_some {B : Type} (f : event -> option B)
    (g : string -> MachineLease -> B) (gr : list (Machine * MachineLease)) :
  (forall machineID ttl lease,
      f (EvFlapsGetLease machineID ttl (Done lease)) = Some (g machineID lease)) ->
  omap f (lease_events gr) = (fun x => g (ID x.1) x.2) <$> gr.
Proof.
  intros Hf. induction gr as [|x gr IH]; [reflexivity|].
  cbn [lease_events fmap list_fmap omap list_omap]. rewrite Hf. f_equal. exact IH.
Qed.

Lemma omap_restarted_none {B : Type} (f : event -> option B)
    (steps : list (string * Client)) :
  (forall line, f (EvFprintf line) = None) ->
  (forall c, f (EvRestartNodePG c None) = None) ->
  omap f (restarted steps) = [].
Proof.
  intros Hline Hf. induction steps as [|s steps IH]; [reflexivity|].
  cbn [restarted flat_map Datatypes.app omap list_omap]. rewrite Hline, Hf. exact IH.
Qed.

Lemma omap_restarted_some {B : Type} (f : event -> option B) (g : Client -> B)
    (steps : list (string * Client)) :
  (forall line, f (EvFprintf line) = None) ->
  (forall c, f (EvRestartNodePG c None) = Some (g c)) ->
  omap f (restarted steps) = (fun s => g s.2) <$> steps.
Proof.
  intros Hline Hf. induction steps as [|s steps IH]; [reflexivity|].
  cbn [restarted flat_map Datatypes.app omap list_omap fmap list_fmap].
  rewrite Hline, Hf. f_equal. exact IH.
Qed.

(** Compute what a history shows, segment by segment. *)
Ltac read_history :=
  unfold membership_empty, resolved, version_gate, gate_failures, agent_calls, tunnel_calls,
    dialers, listed, reported, memberships, lease_calls, granted, refused,
    restarts, failed_restarts, failures;
  repeat first
    [ progress cbn [omap list_omap Datatypes.app failure]
    | rewrite omap_app
    | rewrite omap_lease_events_none by (intros; reflexivity)
    | rewrite omap_restarted_none by (intros; reflexivity)
    | rewrite (omap_lease_events_some _ (fun machineID lease => (machineID, Done lease)))
        by (intros; reflexivity)
    | rewrite (omap_lease_events_some _
                 (fun machineID lease => (machineID, Nonce (Data lease))))
        by (intros; reflexivity)
    | rewrite (omap_restarted_some _ (fun c => c)) by (intros; reflexivity) ];
  rewrite ?app_nil_r.

(** The last call of a history. *)
Ltac read_last :=
  cbn [Datatypes.app]; repeat first [rewrite last_cons | rewrite last_app];
  reflexivity.

(** Split a run into its cases. *)
Ltac run_cases :=
  repeat match goal with
         | H : restart_run _ _ _ _ |- _ => inversion H; clear H; subst
         | H : nomad_run _ _ _ |- _ => inversion H; clear H; subst
         | H : machines_run _ _ _ _ |- _ => inversion H; clear H; subst
         | H : dial_run _ _ _ |- _ => inversion H; clear H; subst
         | H : lease_run _ _ _ _ |- _ => inversion H; clear H; subst
         | H : loop_run _ _ _ |- _ => inversion H; clear H; subst
         end.

(** * The entry point *)

(** C8.  When the app the run resolved is not a Postgres app, the run ends
    with the error "app <name> is not a Postgres app" right after resolving
    the app: the history holds that one call, so no version check, no lease
    call, no tunnel and no restart command took place. *)
Theorem not_postgres_aborts_first (w : World) (ctx : Context) (app : AppCompact) :
  api_GetAppCompact w [] (NameFromContext ctx) = Done app ->
  IsPostgresApp app = false ->
  let (t, r) := runRestart w ctx [] in
  t = [EvGetAppCompact (NameFromContext ctx) (Done app)]
  /\ r = Fail (errorString ("app " +:+ Name app +:+ " is not a Postgres app"))
  /\ version_gate t = [] /\ lease_calls t = [] /\ agent_calls t = []
  /\ tunnel_calls t = [] /\ restarts t = [].
Proof.
  intros Happ Hpg.
  unfold runRestart, bind, or_return, GetAppCompact, call.
  rewrite Happ, Hpg. cbn. repeat split; reflexivity.
Qed.

Lemma not_postgres_aborts_first_witness :
  api_GetAppCompact world_not_postgres [] (NameFromContext ctx0)
  = Done (pgtest "machines" false)
  /\ IsPostgresApp (pgtest "machines" false) = false
  /\ let (t, r) := runRestart world_not_postgres ctx0 [] in
     t = [EvGetAppCompact (NameFromContext ctx0) (Done (pgtest "machines" false))]
     /\ r = Fail (errorString ("app " +:+ Name (pgtest "machines" false)
                               +:+ " is not a Postgres app"))
     /\ version_gate t = [] /\ lease_calls t = [] /\ agent_calls t = []
     /\ tunnel_calls t = [] /\ restarts t = [].
Proof.
  split; [reflexivity|]. split; [reflexivity|].
  apply (not_postgres_aborts_first world_not_postgres ctx0 (pgtest "machines" false));
    reflexivity.
Defined.

(** A resolved app on another platform that is not a Postgres app: the
    run returns an error, not nil. *)
Lemma other_platform_not_postgres_is_refused :
  ~ (PlatformVersion (pgtest "kubernetes" false) <> "nomad" ->
     PlatformVersion (pgtest "kubernetes" false) <> "machines" ->
     (runRestart world_other_not_postgres ctx0 []).2 = Done tt).
Proof.
  intros H.
  assert (Hr : (runRestart world_other_not_postgres ctx0 []).2 = Done tt)
    by (apply H; discriminate).
  vm_compute in Hr. discriminate Hr.
Qed.

(** C9, as the code has it.  When the resolved app has a platform version
    other than "nomad" and "machines", the run ends right after resolving
    the app: no restart command, no lease call and no tunnel.  It returns
    nil, a silent no-op, when the app is a Postgres app, and the error
    "app <name> is not a Postgres app" when it is not. *)
Theorem other_platform_is_silent_noop (w : World) (ctx : Context) (app : AppCompact) :
  api_GetAppCompact w [] (NameFromContext ctx) = Done app ->
  PlatformVersion app <> "nomad" ->
  PlatformVersion app <> "machines" ->
  let (t, r) := runRestart w ctx [] in
  t = [EvGetAppCompact (NameFromContext ctx) (Done app)]
  /\ (IsPostgresApp app = true -> r = Done tt)
  /\ (IsPostgresApp app = false ->
      r = Fail (errorString ("app " +:+ Name app +:+ " is not a Postgres app")))
  /\ restarts t = [] /\ lease_calls t = [] /\ agent_calls t = []
  /\ tunnel_calls t = [].
Proof.
  intros Happ Hnomad Hmachines.
  apply String.eqb_neq in Hnomad. apply String.eqb_neq in Hmachines.
  unfold runRestart, bind, or_return, GetAppCompact, call.
  rewrite Happ. destruct (IsPostgresApp app); cbn [negb].
  - rewrite Hnomad, Hmachines. cbn.
    repeat split; first [reflexivity | discriminate].
  - cbn. repeat split; first [reflexivity | discriminate].
Qed.

Lemma other_platform_is_silent_noop_witness :
  api_GetAppCompact world_other_platform [] (NameFromContext ctx0)
  = Done (pgtest "kubernetes" true)
  /\ PlatformVersion (pgtest "kubernetes" true) <> "nomad"
  /\ PlatformVersion (pgtest "kubernetes" true) <> "machines"
  /\ let (t, r) := runRestart world_other_platform ctx0 [] in
     t = [EvGetAppCompact (NameFromContext ctx0) (Done (pgtest "kubernetes" true))]
     /\ (IsPostgresApp (pgtest "kubernetes" true) = true -> r = Done tt)
     /\ (IsPostgresApp (pgtest "kubernetes" true) = false ->
         r = Fail (errorString ("app " +:+ Name (pgtest "kubernetes" true)
                                +:+ " is not a Postgres app")))
     /\ restarts t = [] /\ lease_calls t = [] /\ agent_calls t = []
     /\ tunnel_calls t = [].
Proof.
  split; [reflexivity|]. split; [discriminate|]. split; [discriminate|].
  apply (other_platform_is_silent_noop world_other_platform ctx0
           (pgtest "kubernetes" true)); [reflexivity|discriminate|discriminate].
Defined.

(** * The version gate *)

(** A run in which the version gate refuses a machines cluster: the tunnel
    is already up when the gate is asked. *)
Lemma version_gate_refusal_follows_tunnel :
  ~ (0 < length (gate_failures (runRestart world_old_machines ctx0 []).1) ->
     lease_calls (runRestart world_old_machines ctx0 []).1 = []
     /\ tunnel_calls (runRestart world_old_machines ctx0 []).1 = []).
Proof.
  intros H.
  assert (Hgate : 0 < length (gate_failures (runRestart world_old_machines ctx0 []).1))
    by (vm_compute; lia).
  destruct (H Hgate) as [_ Htunnel].
  vm_compute in Htunnel. discriminate Htunnel.
Qed.

(** C1, as the code has it.  When the version gate reports an
    incompatibility, that call is the last of the run and its error is
    returned as it is; no lease was asked for and no restart command was
    sent.  On nomad nothing was done towards a tunnel either.  On machines
    the gate is asked about the leader, which is fetched through a tunnel:
    the agent was reached and one dialer was built before the gate. *)
Theorem version_gate_refusal_aborts (w : World) (ctx : Context)
    (t : trace) (r : outcome unit) :
  runRestart w ctx [] = (t, r) ->
  0 < length (gate_failures t) ->
  exists app e ev,
    resolved t = [app]
    /\ last t = Some ev /\ failure ev = Some e /\ gate_failures t = [e]
    /\ r = Fail e
    /\ lease_calls t = [] /\ restarts t = []
    /\ (PlatformVersion app = "nomad" -> agent_calls t = [] /\ tunnel_calls t = [])
    /\ (PlatformVersion app = "machines" ->
        exists a d, agent_calls t = [Done a] /\ tunnel_calls t = [Done d]).
Proof.
  intros Hrun. apply runRestart_run in Hrun.
  run_cases; read_history; intros Hgate;
    try (exfalso; cbn [length] in Hgate; lia).
  - eexists app, e, _. repeat (split; [reflexivity|]).
    split; [intros _; split; reflexivity | intros Hm; congruence].
  - eexists app, e, _. repeat (split; [reflexivity|]).
    split; [intros Hn; congruence | intros _; eexists _, _; split; reflexivity].
Qed.

Lemma version_gate_refusal_aborts_witness :
  runRestart world_old_machines ctx0 []
  = ((runRestart world_old_machines ctx0 []).1, (runRestart world_old_machines ctx0 []).2)
  /\ 0 < length (gate_failures (runRestart world_old_machines ctx0 []).1)
  /\ exists app e ev,
       resolved (runRestart world_old_machines ctx0 []).1 = [app]
       /\ last (runRestart world_old_machines ctx0 []).1 = Some ev
       /\ failure ev = Some e
       /\ gate_failures (runRestart world_old_machines ctx0 []).1 = [e]
       /\ (runRestart world_old_machines ctx0 []).2 = Fail e
       /\ lease_calls (runRestart world_old_machines ctx0 []).1 = []
       /\ restarts (runRestart world_old_machines ctx0 []).1 = []
       /\ (PlatformVersion app = "nomad" ->
           agent_calls (runRestart world_old_machines ctx0 []).1 = []
           /\ tunnel_calls (runRestart world_old_machines ctx0 []).1 = [])
       /\ (PlatformVersion app = "machines" ->
           exists a d,
             agent_calls (runRestart world_old_machines ctx0 []).1 = [Done a]
             /\ tunnel_calls (runRestart world_old_machines ctx0 []).1 = [Done d]).
Proof.
  split; [reflexivity|]. split; [vm_compute; lia|].
  apply (version_gate_refusal_aborts world_old_machines ctx0);
    [reflexivity | vm_compute; lia].
Defined.

(** * Empty membership *)

(** A machines run whose listing is empty: the tunnel for the version gate
    was built before the machines were listed. *)
Lemma empty_membership_follows_tunnel :
  ~ (membership_empty (runRestart world_empty_machines ctx0 []).1 = true ->
     (runRestart world_empty_machines ctx0 []).2
     = Fail (errorString "no machines found")
     /\ lease_calls (runRestart world_empty_machines ctx0 []).1 = []
     /\ tunnel_calls (runRestart world_empty_machines ctx0 []).1 = []).
Proof.
  intros H. destruct (H eq_refl) as (_ & _ & Htunnel).
  vm_compute in Htunnel. discriminate Htunnel.
Qed.

(** C5, as the code has it.  When membership resolution returns zero nodes
    the run is one on nomad or on machines and ends with "no vms found"
    (nomad) or "no machines found" (machines), never with success; no lease is asked for and no restart
    command is sent, and nothing is done towards a tunnel after the
    resolution.  On nomad the run built no tunnel at all; on machines the
    entry point had built one before, to fetch the leader for the version
    gate.  The histories are given in full. *)
Theorem empty_membership_aborts (w : World) (ctx : Context)
    (t : trace) (r : outcome unit) :
  runRestart w ctx [] = (t, r) ->
  membership_empty t = true ->
  lease_calls t = [] /\ restarts t = []
  /\ (r = Fail (errorString "no vms found")
      \/ r = Fail (errorString "no machines found"))
  /\ exists app,
      resolved t = [app]
      /\ (PlatformVersion app = "nomad" \/ PlatformVersion app = "machines")
      /\ (PlatformVersion app = "nomad" ->
          r = Fail (errorString "no vms found")
          /\ agent_calls t = [] /\ tunnel_calls t = []
          /\ exists status,
               Allocations status = []
               /\ t = [EvGetAppCompact (NameFromContext ctx) (Done app);
                       EvHasRequiredVersionOnNomad app "0.0.20" "0.0.20" None;
                       EvGetAppStatus (Name app) false (Done status)])
      /\ (PlatformVersion app = "machines" ->
          r = Fail (errorString "no machines found")
          /\ exists a d leader,
               t = [EvGetAppCompact (NameFromContext ctx) (Done app);
                    EvAgentEstablish (Done a);
                    EvAgentDialer a (Slug (Organization app)) (Done d);
                    EvFetchLeader app d (Done leader);
                    EvHasRequiredVersionOnMachines leader "0.0.20" "0.0.20" None;
                    EvFlapsEstablishForApp app None;
                    EvFlapsList "started" (Done []);
                    EvFprintf acquiring_line]).
Proof.
  intros Hrun. apply runRestart_run in Hrun.
  run_cases; read_history;
    repeat match goal with
           | H : ?l <> [] |- _ => destruct l eqn:?; [congruence|clear H]
           | H : _ = _ ++ _ :: _ |- _ => apply (f_equal length) in H
           end;
    cbn [existsb length fmap list_fmap Nat.eqb orb]; intros Hempty;
    try discriminate Hempty.
  - (* nomad, no allocation *)
    repeat (split; [reflexivity|]). split; [left; reflexivity|].
    exists app. split; [reflexivity|]. split; [left; assumption|].
    split; [|intros Hm; congruence].
    intros _. repeat (split; [reflexivity|]).
    exists status. split; [assumption|reflexivity].
  - (* machines, listing refused a lease, on an empty prefix *)
    exfalso. revert Hempty. rewrite length_app. cbn [length].
    rewrite Nat.add_succ_r. cbn [Nat.eqb orb]. discriminate.
  - (* machines, no machine *)
    repeat (split; [reflexivity|]). split; [right; reflexivity|].
    exists app. split; [reflexivity|]. split; [right; assumption|].
    split; [intros Hn; congruence|].
    intros _. split; [reflexivity|]. eexists _, _, _. reflexivity.
Qed.

Lemma empty_membership_aborts_witness :
  runRestart world_empty_nomad ctx0 []
  = ([EvGetAppCompact "pgtest" (Done (pgtest "nomad" true));
      EvHasRequiredVersionOnNomad (pgtest "nomad" true) "0.0.20" "0.0.20" None;
      EvGetAppStatus "pgtest" false (Done {| Allocations := [] |})],
     Fail (errorString "no vms found"))
  /\ membership_empty
       [EvGetAppCompact "pgtest" (Done (pgtest "nomad" true));
        EvHasRequiredVersionOnNomad (pgtest "nomad" true) "0.0.20" "0.0.20" None;
        EvGetAppStatus "pgtest" false (Done {| Allocations := [] |})] = true
  /\ lease_calls
       [EvGetAppCompact "pgtest" (Done (pgtest "nomad" true));
        EvHasRequiredVersionOnNomad (pgtest "nomad" true) "0.0.20" "0.0.20" None;
        EvGetAppStatus "pgtest" false (Done {| Allocations := [] |})] = []
  /\ ((runRestart world_empty_machines ctx0 []).2
      = Fail (errorString "no vms found")
      \/ (runRestart world_empty_machines ctx0 []).2
         = Fail (errorString "no machines found")).
Proof.
  split; [reflexivity|]. split; [reflexivity|]. split.
  - apply (empty_membership_aborts world_empty_nomad ctx0 _
             (Fail (errorString "no vms found"))); reflexivity.
  - apply (empty_membership_aborts world_empty_machines ctx0
             (runRestart world_empty_machines ctx0 []).1
             (runRestart world_empty_machines ctx0 []).2); reflexivity.
Defined.

(** * Tunnels *)

Lemma machine_steps_dialer (d : Dialer) (entries : list (string * Machine)) :
  Forall (fun s => client_dialer s.2 = d) (machine_steps d entries).
Proof. unfold machine_steps. apply Forall_fmap, Forall_true. reflexivity. Qed.

Lemma vm_steps_dialer (d : Dialer) (vms : list AllocationStatus) :
  Forall (fun s => client_dialer s.2 = d) (vm_steps d vms).
Proof. unfold vm_steps. apply Forall_fmap, Forall_true. reflexivity. Qed.

(** Cut a history in two after the line that announces the restarts. *)
Ltac cut_at_restarting :=
  cbn [Datatypes.app];
  match goal with
  | |- exists pre post, ?t = _ /\ _ =>
      match t with
      | context C [EvFprintf restarting_line :: ?post] =>
          let pre := context C [[EvFprintf restarting_line]] in
          exists pre, post;
          split; [cbn [Datatypes.app]; rewrite <- ?app_assoc; reflexivity|]
      end
  end.

(** A healthy machines cluster: the run builds two tunnels. *)
Lemma machines_run_builds_two_tunnels :
  ~ (length (tunnel_calls (runRestart world_machines ctx0 []).1) = 1).
Proof. vm_compute. discriminate. Qed.

(** C2, as the code has it.  A run builds at most two tunnels, and at most
    one on nomad; a machines run that gets as far as restarting has built
    two, one in the entry point to fetch the leader and one in
    [restartMachinesCluster].  No tunnel is built per node: the history
    splits into a part without restart commands and a part in which neither
    the agent nor a dialer is asked for, and every restart command of that
    second part goes through the dialer that was built last. *)
Theorem tunnels_of_a_run (w : World) (ctx : Context) (t : trace) (r : outcome unit) :
  runRestart w ctx [] = (t, r) ->
  length (tunnel_calls t) <= 2
  /\ (forall app, resolved t = [app] -> PlatformVersion app = "nomad" ->
        length (tunnel_calls t) <= 1)
  /\ (forall app, resolved t = [app] -> PlatformVersion app = "machines" ->
        0 < length (restarts t) -> length (dialers t) = 2)
  /\ exists pre post,
      t = pre ++ post
      /\ restarts pre = []
      /\ agent_calls post = [] /\ tunnel_calls post = []
      /\ Forall (fun c => last (dialers pre) = Some (client_dialer c)) (restarts post).
Proof.
  intros Hrun. apply runRestart_run in Hrun. run_cases.
  all: split; [read_history; cbn [length]; lia|].
  all: split; [read_history; intros ? [= <-] Hn; cbn [length]; (lia || congruence)|].
  all: split; [read_history; intros ? [= <-] Hm; rewrite ?length_app, ?length_fmap;
               cbn [length]; (lia || congruence)|].
  all: try solve [ eexists _, []; rewrite app_nil_r; split; [reflexivity|];
                   read_history; repeat split; try reflexivity; constructor ].
  all: cut_at_restarting; read_history; repeat (split; [reflexivity|]).
  all: rewrite ?Forall_app, ?Forall_fmap; cbn [last].
  all: match goal with
       | H : vm_steps ?d ?vms = _ |- _ =>
           pose proof (vm_steps_dialer d vms) as HF; rewrite H in HF
       | H : machine_steps ?d ?entries = _ |- _ =>
           pose proof (machine_steps_dialer d entries) as HF; rewrite H in HF
       | |- context [vm_steps ?d ?vms] => pose proof (vm_steps_dialer d vms) as HF
       | |- context [machine_steps ?d ?entries] =>
           pose proof (machine_steps_dialer d entries) as HF
       end.
  all: rewrite ?Forall_app, ?Forall_cons in HF.
  all: try (destruct HF as (Hbefore & Hs & _); split;
            [|constructor; [cbn; congruence|constructor]]).
  all: match goal with
       | HF : Forall _ ?l |- Forall _ ?l =>
           eapply Forall_impl; [exact HF|]; intros ? ?; cbn; congruence
       end.
Qed.

Lemma tunnels_of_a_run_witness :
  length (tunnel_calls (runRestart world_machines ctx0 []).1) <= 2
  /\ (forall app, resolved (runRestart world_machines ctx0 []).1 = [app] ->
        PlatformVersion app = "nomad" ->
        length (tunnel_calls (runRestart world_machines ctx0 []).1) <= 1)
  /\ (forall app, resolved (runRestart world_machines ctx0 []).1 = [app] ->
        PlatformVersion app = "machines" ->
        0 < length (restarts (runRestart world_machines ctx0 []).1) ->
        length (dialers (runRestart world_machines ctx0 []).1) = 2)
  /\ exists pre post,
      (runRestart world_machines ctx0 []).1 = pre ++ post
      /\ restarts pre = []
      /\ agent_calls post = [] /\ tunnel_calls post = []
      /\ Forall (fun c => last (dialers pre) = Some (client_dialer c)) (restarts post).
Proof.
  apply (tunnels_of_a_run world_machines ctx0 _ (runRestart world_machines ctx0 []).2).
  reflexivity.
Defined.

(** * Leases *)

(** C3.  In the leased variant every lease is obtained before the first
    restart command: a history with a restart command splits into a part
    without restart commands, in which a lease was granted for each listed
    machine in turn and none was refused, and a part without lease calls.
    When a lease is refused, that call is the last of the run, the run
    returns its error wrapped in "failed to obtain lease: " and no restart
    command was sent to any machine. *)
Theorem leases_precede_restarts (w : World) (ctx : Context)
    (t : trace) (r : outcome unit) (app : AppCompact) :
  runRestart w ctx [] = (t, r) ->
  resolved t = [app] ->
  PlatformVersion app = "machines" ->
  (0 < length (restarts t) ->
   exists out pre post,
     t = pre ++ post
     /\ listed t = [out]
     /\ (granted pre).*1 = ID <$> out
     /\ refused t = []
     /\ restarts pre = []
     /\ lease_calls post = [])
  /\ (0 < length (refused t) ->
      exists machineID e,
        refused t = [(machineID, e)]
        /\ last t = Some (EvFlapsGetLease machineID (Some 40%Z) (Fail e))
        /\ r = Fail (Errorf_w "failed to obtain lease: " e)
        /\ restarts t = []).
Proof.
  intros Hrun Happ Hm. apply runRestart_run in Hrun. revert Happ.
  run_cases; read_history; intros [= <-]; try congruence.
  all: split; read_history; rewrite ?length_app, ?length_fmap; cbn [length];
    intros Hlen; try (exfalso; lia).
  - eexists _, _. split; [reflexivity|]. split; [read_last|]. split; reflexivity.
  - exists gr.*1. cut_at_restarting. read_history.
    repeat (split; [reflexivity|]). split; [|repeat split; reflexivity].
    rewrite <- !list_fmap_compose. reflexivity.
  - exists gr.*1. cut_at_restarting. read_history.
    repeat (split; [reflexivity|]). split; [|repeat split; reflexivity].
    rewrite <- !list_fmap_compose. reflexivity.
Qed.

Lemma leases_precede_restarts_witness :
  (exists out pre post,
     (runRestart world_machines ctx0 []).1 = pre ++ post
     /\ listed (runRestart world_machines ctx0 []).1 = [out]
     /\ (granted pre).*1 = ID <$> out
     /\ refused (runRestart world_machines ctx0 []).1 = []
     /\ restarts pre = []
     /\ lease_calls post = [])
  /\ (exists machineID e,
        refused (runRestart (world_lease_refused "B") ctx0 []).1 = [(machineID, e)]
        /\ last (runRestart (world_lease_refused "B") ctx0 []).1
           = Some (EvFlapsGetLease machineID (Some 40%Z) (Fail e))
        /\ (runRestart (world_lease_refused "B") ctx0 []).2
           = Fail (Errorf_w "failed to obtain lease: " e)
        /\ restarts (runRestart (world_lease_refused "B") ctx0 []).1 = []).
Proof.
  split.
  - apply (leases_precede_restarts world_machines ctx0 _
             (runRestart world_machines ctx0 []).2 (pgtest "machines" true));
      [reflexivity | reflexivity | reflexivity | vm_compute; lia].
  - apply (leases_precede_restarts (world_lease_refused "B") ctx0 _
             (runRestart (world_lease_refused "B") ctx0 []).2
             (pgtest "machines" true));
      [reflexivity | reflexivity | reflexivity | vm_compute; lia].
Defined.

(** * Failures *)

(** Two runs in which the lease is refused on different machines return the
    same error. *)
Lemma lease_error_does_not_name_the_machine :
  ~ ((runRestart (world_lease_refused "A") ctx0 []).2
     = (runRestart (world_lease_refused "B") ctx0 []).2 ->
     (refused (runRestart (world_lease_refused "A") ctx0 []).1).*1
     = (refused (runRestart (world_lease_refused "B") ctx0 []).1).*1).
Proof.
  intros H. specialize (H eq_refl). vm_compute in H. discriminate H.
Qed.

(** C7, as the code has it.  A call that fails is the last call of the run
    and the only one that failed, and the run returns the error of that
    call as its call site wraps it; a run without a failed call returns
    nil or one of the three errors the command raises itself.  A refused
    lease surfaces as "failed to obtain lease: <cause>" around the cause,
    a failed restart as "failed to restart postgres on node: <cause>"
    around the cause: the error carries the cause, and nothing else about
    the node. *)
Theorem failures_end_the_run (w : World) (ctx : Context)
    (t : trace) (r : outcome unit) :
  runRestart w ctx [] = (t, r) ->
  (0 < length (failures t) ->
   exists ev c,
     failures t = [(ev, c)] /\ last t = Some ev /\ r = Fail (surfaced ev c))
  /\ (failures t = [] ->
      r = Done tt
      \/ r = Fail (errorString "no machines found")
      \/ r = Fail (errorString "no vms found")
      \/ exists app,
           r = Fail (errorString ("app " +:+ Name app +:+ " is not a Postgres app")))
  /\ (forall machineID e,
        refused t = [(machineID, e)] ->
        r = Fail (wrapError ("failed to obtain lease: " +:+ Error e) e))
  /\ (forall c e,
        failed_restarts t = [(c, e)] ->
        r = Fail (wrapError ("failed to restart postgres on node: " +:+ Error e) e)).
Proof.
  intros Hrun. apply runRestart_run in Hrun.
  run_cases; (split; [|split; [|split]]); read_history;
    rewrite ?length_app, ?length_fmap; cbn [length];
    try (intros Hlen; exfalso; lia);
    try (intros ? ? [=]; subst; reflexivity);
    try (intros [=]).
  all: try (intros _; eexists _, _; split; [reflexivity|];
            split; [read_last|reflexivity]).
  all: try (left; reflexivity).
  all: try (right; left; reflexivity).
  all: try (right; right; left; reflexivity).
  all: right; right; right; eexists; reflexivity.
Qed.

Lemma failures_end_the_run_witness :
  (exists ev c,
     failures (runRestart (world_lease_refused "B") ctx0 []).1 = [(ev, c)]
     /\ last (runRestart (world_lease_refused "B") ctx0 []).1 = Some ev
     /\ (runRestart (world_lease_refused "B") ctx0 []).2 = Fail (surfaced ev c))
  /\ (runRestart (world_lease_refused "B") ctx0 []).2
     = Fail (wrapError ("failed to obtain lease: " +:+ Error (errorString "lease denied"))
                       (errorString "lease denied"))
  /\ (runRestart world_machines_B_down ctx0 []).2
     = Fail (wrapError ("failed to restart postgres on node: "
                        +:+ Error (errorString "unreachable"))
                       (errorString "unreachable")).
Proof.
  pose proof (failures_end_the_run (world_lease_refused "B") ctx0
                (runRestart (world_lease_refused "B") ctx0 []).1
                (runRestart (world_lease_refused "B") ctx0 []).2 eq_refl)
    as (Hlast & _ & Hlease & _).
  pose proof (failures_end_the_run world_machines_B_down ctx0
                (runRestart world_machines_B_down ctx0 []).1
                (runRestart world_machines_B_down ctx0 []).2 eq_refl)
    as (_ & _ & _ & Hrestart).
  split; [apply Hlast; vm_compute; lia|].
  split; [apply (Hlease "B"); reflexivity|].
  apply (Hrestart (NewFromInstance "[fdaa::b]" (tunnelDialer 12))); reflexivity.
Defined.

(** * Fail-fast *)

Lemma only_failed_restart_is_last (t : trace) (c : Client) (e : error) :
  failed_restarts t = [(c, e)] ->
  last t = Some (EvRestartNodePG c (Some e)) ->
  forall pre c' e' post,
    t = pre ++ EvRestartNodePG c' (Some e') :: post ->
    post = [] /\ c' = c /\ e' = e.
Proof.
  intros Hfailed Hlast pre c' e' post ->.
  unfold failed_restarts in Hfailed. rewrite omap_app in Hfailed.
  cbn [omap list_omap] in Hfailed.
  destruct (omap _ pre) as [|x xs] eqn:Hpre in Hfailed.
  2: { destruct xs; discriminate Hfailed. }
  injection Hfailed as -> -> Hpost.
  destruct post as [|ev post _] using rev_ind; [auto|].
  exfalso.
  rewrite app_comm_cons, app_assoc, last_snoc in Hlast.
  injection Hlast as ->.
  rewrite omap_app in Hpost. cbn in Hpost.
  destruct (omap _ post); discriminate Hpost.
Qed.

Lemma restart_failure_cases (w : World) (ctx : Context)
    (t : trace) (r : outcome unit) :
  restart_run w ctx t r ->
  0 < length (failed_restarts t) ->
  exists c e steps before s rest,
    failed_restarts t = [(c, e)]
    /\ last t = Some (EvRestartNodePG c (Some e))
    /\ r = Fail (Errorf_w "failed to restart postgres on node: " e)
    /\ restart_plan w t steps
    /\ steps = before ++ s :: rest
    /\ s.2 = c
    /\ restarts t = (before ++ [s]).*2.
Proof.
  intros Hrun. unfold restart_plan.
  run_cases; read_history; rewrite ?length_app, ?length_fmap; cbn [length];
    intros Hlen; try (exfalso; lia).
  - eexists _, _, _, before, s, rest.
    split; [reflexivity|]. split; [read_last|]. split; [reflexivity|].
    split; [left; eexists _, _; split; reflexivity|].
    split; [eassumption|]. split; [reflexivity|].
    rewrite fmap_app. reflexivity.
  - eexists _, _, _, before, s, rest.
    split; [reflexivity|]. split; [read_last|]. split; [reflexivity|].
    split; [right; eexists _, _, gr; split; [reflexivity|split; reflexivity]|].
    split; [eassumption|]. split; [reflexivity|].
    rewrite fmap_app. reflexivity.
Qed.

(** C4.  In either variant, when the restart command to a node fails,
    nothing follows it in the history of the run, and the run returns that
    error wrapped in "failed to restart postgres on node: ".  The commands
    sent are those of the loop's steps up to and including the one that
    failed; the steps after it were not taken. *)
Theorem restart_failure_stops_the_run (w : World) (ctx : Context)
    (t : trace) (r : outcome unit) :
  runRestart w ctx [] = (t, r) ->
  forall pre c e post,
    t = pre ++ EvRestartNodePG c (Some e) :: post ->
    post = []
    /\ r = Fail (Errorf_w "failed to restart postgres on node: " e)
    /\ exists steps before s rest,
        restart_plan w t steps
        /\ steps = before ++ s :: rest
        /\ s.2 = c
        /\ restarts t = (before ++ [s]).*2.
Proof.
  intros Hrun pre c e post Ht. apply runRestart_run in Hrun.
  destruct (restart_failure_cases w ctx t r Hrun)
    as (c0 & e0 & steps & before & s & rest
        & Hfailed & Hlast & Hr & Hplan & Hsteps & Hs & Hrestarts).
  { rewrite Ht. unfold failed_restarts. rewrite omap_app, length_app.
    cbn [omap list_omap length]. lia. }
  destruct (only_failed_restart_is_last t c0 e0 Hfailed Hlast pre c e post Ht)
    as (Hpost & -> & ->).
  split; [exact Hpost|]. split; [exact Hr|].
  exists steps, before, s, rest. auto.
Qed.

Lemma restart_failure_stops_the_run_witness :
  runRestart world_nomad_B_down ctx0 []
  = ([EvGetAppCompact "pgtest" (Done (pgtest "nomad" true));
      EvHasRequiredVersionOnNomad (pgtest "nomad" true) "0.0.20" "0.0.20" None;
      EvGetAppStatus "pgtest" false (Done {| Allocations := [vmA; vmB; vmC] |});
      EvAgentEstablish (Done (agentClient 3));
      EvAgentDialer (agentClient 3) "personal" (Done (tunnelDialer 4));
      EvFprintf restarting_line;
      EvFprintf (vm_line vmA);
      EvRestartNodePG (vm_client (tunnelDialer 4) vmA) None;
      EvFprintf (vm_line vmB)]
     ++ EvRestartNodePG (vm_client (tunnelDialer 4) vmB)
                        (Some (errorString "unreachable")) :: [],
     Fail (Errorf_w "failed to restart postgres on node: " (errorString "unreachable")))
  /\ exists steps before s rest,
      restart_plan world_nomad_B_down (runRestart world_nomad_B_down ctx0 []).1 steps
      /\ steps = before ++ s :: rest
      /\ s.2 = vm_client (tunnelDialer 4) vmB
      /\ restarts (runRestart world_nomad_B_down ctx0 []).1 = (before ++ [s]).*2.
Proof.
  split; [reflexivity|].
  eapply (restart_failure_stops_the_run world_nomad_B_down ctx0
            (runRestart world_nomad_B_down ctx0 []).1
            (runRestart world_nomad_B_down ctx0 []).2 eq_refl
            _ (vm_client (tunnelDialer 4) vmB) (errorString "unreachable") []).
  reflexivity.
Defined.

(** * The lease map *)

Lemma lease_map_snoc (entries : list (string * Machine)) (nonce : string)
    (machine : Machine) :
  lease_map (entries ++ [(nonce, machine)]) = <[nonce := machine]> (lease_map entries).
Proof. unfold lease_map. rewrite foldl_snoc. reflexivity. Qed.


Lemma lease_map_dom (entries : list (string * Machine)) :
  dom (lease_map entries) = list_to_set entries.*1.
Proof.
  induction entries as [|[nonce machine] entries IH] using rev_ind.
  - unfold lease_map. cbn. apply dom_empty_L.
  - rewrite lease_map_snoc, dom_insert_L, IH, fmap_app, list_to_set_app_L.
    cbn. rewrite (right_id_L ∅ (∪)). apply (comm_L (∪)).
Qed.

(** The map has one entry for each distinct token. *)
Lemma lease_map_size (entries : list (string * Machine)) :
  size (lease_map entries) = length (remove_dups entries.*1).
Proof.
  rewrite <- size_dom, lease_map_dom.
  rewrite <- (size_list_to_set (C := gset string) (remove_dups entries.*1))
    by apply NoDup_remove_dups.
  f_equal. apply set_eq. intros nonce.
  rewrite !elem_of_list_to_set, elem_of_remove_dups. reflexivity.
Qed.

(** Under each token the map holds the machine that was stored under it
    last. *)
Lemma lease_map_lookup (entries : list (string * Machine)) (nonce : string)
    (machine : Machine) :
  lease_map entries !! nonce = Some machine <->
  exists i,
    entries !! i = Some (nonce, machine)
    /\ forall j machine', i < j -> entries !! j <> Some (nonce, machine').
Proof.
  induction entries as [|[nonce' machine'] entries IH] using rev_ind.
  - unfold lease_map. cbn. rewrite lookup_empty. split; [discriminate|].
    intros (i & Hi & _). rewrite lookup_nil in Hi. discriminate.
  - rewrite lease_map_snoc. destruct (decide (nonce' = nonce)) as [->|Hne].
    + rewrite lookup_insert_eq. split.
      * intros [= ->]. exists (length entries).
        split; [apply list_lookup_middle; reflexivity|].
        intros j m Hj Hlookup. apply lookup_lt_Some in Hlookup.
        rewrite length_app in Hlookup. cbn in Hlookup. lia.
      * intros (i & Hi & Hlast).
        destruct (decide (i = length entries)) as [->|Hi'].
        -- rewrite list_lookup_middle in Hi by reflexivity. congruence.
        -- exfalso. apply (Hlast (length entries) machine').
           ++ apply lookup_lt_Some in Hi. rewrite length_app in Hi. cbn in Hi. lia.
           ++ apply list_lookup_middle. reflexivity.
    + rewrite lookup_insert_ne by exact Hne. rewrite IH. split.
      * intros (i & Hi & Hlast). exists i.
        split; [apply lookup_app_l_Some; exact Hi|].
        intros j m Hj Hlookup.
        apply lookup_app_Some in Hlookup as [Hl|[_ Hr]].
        -- exact (Hlast j m Hj Hl).
        -- apply list_lookup_singleton_Some in Hr as [_ Hr]. congruence.
      * intros (i & Hi & Hlast).
        apply lookup_app_Some in Hi as [Hl|[_ Hr]].
        -- exists i. split; [exact Hl|].
           intros j m Hj Hlookup. apply (Hlast j m Hj).
           apply lookup_app_l_Some. exact Hlookup.
        -- apply list_lookup_singleton_Some in Hr as [_ Hr]. congruence.
Qed.



(** * Runs of the leased variant that reach the restart loop *)

Lemma machine_steps_clients (d : Dialer) (entries : list (string * Machine)) :
  (machine_steps d entries).*2 = machine_client d <$> entries.*2.
Proof. unfold machine_steps. rewrite <- !list_fmap_compose. reflexivity. Qed.

(** The runs of the leased variant that get as far as the restart loop. *)
Lemma machines_loop_cases (w : World) (ctx : Context) (t : trace)
    (r : outcome unit) (app : AppCompact) :
  restart_run w ctx t r ->
  resolved t = [app] ->
  PlatformVersion app = "machines" ->
  r = Done tt \/ 0 < length (restarts t) ->
  exists gr d hx,
    listed t = [gr.*1]
    /\ lease_calls t = (fun g => (ID g.1, Done g.2)) <$> gr
    /\ granted t = (fun g => (ID g.1, Nonce (Data g.2))) <$> gr
    /\ refused t = []
    /\ restarts t
       `prefix_of` machine_client d <$> (range_order w hx (lease_map (tokens gr))).*2
    /\ (r = Done tt ->
        restarts t
        = machine_client d <$> (range_order w hx (lease_map (tokens gr))).*2).
Proof.
  intros Hrun.
  run_cases; read_history; rewrite ?length_app, ?length_fmap; cbn [length];
    intros [= <-] Hm Hcase; try congruence;
    try (exfalso; destruct Hcase as [Hcase|Hcase]; [discriminate Hcase|lia]).
  - eexists gr, d0, hx. repeat (split; [reflexivity|]).
    rewrite <- machine_steps_clients.
    split; [reflexivity|]. intros _. reflexivity.
  - eexists gr, d0, hx. repeat (split; [reflexivity|]).
    split; [|intros [=]].
    exists rest.*2. rewrite <- machine_steps_clients.
    match goal with
    | H : machine_steps _ _ = _ |- _ => rewrite H
    end.
    rewrite fmap_app, <- app_assoc. reflexivity.
Qed.








Lemma range_ok_scripted (app : AppCompact) (out : list Machine)
    (vms : list AllocationStatus) (gate : option error)
    (lease : string -> outcome MachineLease) (restart : string -> option error) :
  range_ok (scripted app out vms gate lease restart).
Proof. intros h m. reflexivity. Qed.


(** * One restart per machine *)




(** * Scenarios *)

(** Cluster "pgtest" with machines A, B and C: all leases are granted, the
    three restarts succeed and the run reports success. *)
Example healthy_machines_cluster :
  (runRestart world_machines ctx0 []).2 = Done tt
  /\ granted (runRestart world_machines ctx0 []).1
     = [("A", "nonce-A"); ("B", "nonce-B"); ("C", "nonce-C")]
  /\ restarts (runRestart world_machines ctx0 []).1
     ≡ₚ machine_client (tunnelDialer 12) <$> [machineA; machineB; machineC].
Proof.
  split; [vm_compute; reflexivity|]. split; [vm_compute; reflexivity|].
  assert (Heq : restarts (runRestart world_machines ctx0 []).1
                = machine_client (tunnelDialer 12) <$> [machineC; machineA; machineB])
    by (vm_compute; reflexivity).
  rewrite Heq. cbn [fmap list_fmap].
  rewrite (Permutation_swap (machine_client (tunnelDialer 12) machineA)).
  apply Permutation_skip, Permutation_swap.
Qed.

(** The same cluster on nomad, with B unreachable: A and B are sent the
    command, C is not, and the run fails with the cause. *)
Example nomad_cluster_B_down :
  restarts (runRestart world_nomad_B_down ctx0 []).1
  = vm_client (tunnelDialer 4) <$> [vmA; vmB]
  /\ (runRestart world_nomad_B_down ctx0 []).2
     = Fail (wrapError "failed to restart postgres on node: unreachable"
                       (errorString "unreachable")).
Proof. split; vm_compute; reflexivity. Qed.

(** On nomad the version gate comes first: when it refuses the cluster
    nothing else has been called. *)
Example old_nomad_cluster :
  runRestart world_old_nomad ctx0 []
  = ([EvGetAppCompact "pgtest" (Done (pgtest "nomad" true));
      EvHasRequiredVersionOnNomad (pgtest "nomad" true) "0.0.20" "0.0.20"
                                  (Some incompatible)],
     Fail incompatible).
Proof. reflexivity. Qed.

(** A healthy nomad cluster builds one tunnel and restarts its three
    allocations in the order they were reported. *)
Example healthy_nomad_cluster :
  (runRestart world_nomad ctx0 []).2 = Done tt
  /\ dialers (runRestart world_nomad ctx0 []).1 = [tunnelDialer 4]
  /\ restarts (runRestart world_nomad ctx0 []).1
     = vm_client (tunnelDialer 4) <$> [vmA; vmB; vmC].
Proof. repeat split; vm_compute; reflexivity. Qed.

(** The error of a failed call keeps its cause: [Unwrap] gives it back. *)
Example refused_lease_unwraps :
  match (runRestart (world_lease_refused "B") ctx0 []).2 with
  | Fail e => Unwrap e = Some (errorString "lease denied")
  | Done _ => False
  end.
Proof. vm_compute. reflexivity. Qed.

(** * More about the restart command *)

Lemma lease_ttls_lease_events (gr : list (Machine * MachineLease)) :
  lease_ttls (lease_events gr) = (fun _ => Some 40%Z) <$> gr.
Proof.
  induction gr as [|g gr IH]; [reflexivity|].
  unfold lease_ttls in *. cbn [lease_events fmap list_fmap omap list_omap].
  f_equal. exact IH.
Qed.

Lemma printed_restarted (steps : list (string * Client)) :
  printed (restarted steps) = steps.*1.
Proof.
  induction steps as [|s steps IH]; [reflexivity|].
  unfold printed in *.
  cbn [restarted flat_map Datatypes.app omap list_omap fmap list_fmap].
  f_equal. exact IH.
Qed.

Lemma vm_steps_clients (d : Dialer) (vms : list AllocationStatus) :
  (vm_steps d vms).*2 = vm_client d <$> vms.
Proof. unfold vm_steps. rewrite <- !list_fmap_compose. reflexivity. Qed.

(** Compute the arguments of the calls a history shows, then the rest. *)
Ltac read_calls :=
  unfold app_lookups, gate_calls, nomad_gate_subjects, machines_gate_subjects,
    leader_calls, leaders, agents, dial_requests, flaps_establishes,
    list_filters, status_calls;
  let Httl := fresh "Httl" in
  let Hprinted := fresh "Hprinted" in
  pose proof lease_ttls_lease_events as Httl; unfold lease_ttls in Httl;
  pose proof printed_restarted as Hprinted; unfold printed in Hprinted;
  unfold lease_ttls, printed;
  repeat first
    [ progress cbn [omap list_omap Datatypes.app]
    | rewrite omap_app
    | rewrite Httl
    | rewrite Hprinted
    | rewrite omap_lease_events_none by (intros; reflexivity)
    | rewrite omap_restarted_none by (intros; reflexivity) ];
  clear Httl Hprinted;
  read_history.

(** X1.  The legacy variant restarts the allocations in the order the app
    status reported them, through the one dialer the run built: the
    commands sent are an initial part of that sequence, and the whole of
    it, one command per allocation, when the run succeeds. *)
Theorem nomad_restarts_in_reported_order (w : World) (ctx : Context)
    (t : trace) (r : outcome unit) (app : AppCompact) :
  runRestart w ctx [] = (t, r) ->
  resolved t = [app] ->
  PlatformVersion app = "nomad" ->
  r = Done tt \/ 0 < length (restarts t) ->
  exists vms d,
    reported t = [vms]
    /\ dialers t = [d]
    /\ restarts t `prefix_of` vm_client d <$> vms
    /\ (r = Done tt -> restarts t = vm_client d <$> vms).
Proof.
  intros Hrun. apply runRestart_run in Hrun.
  run_cases; read_history; rewrite ?length_app, ?length_fmap; cbn [length];
    intros [= <-] Hn Hcase; try congruence;
    try (exfalso; destruct Hcase as [Hcase|Hcase]; [discriminate Hcase|lia]).
  - eexists _, d. repeat (split; [reflexivity|]).
    rewrite <- vm_steps_clients. split; [reflexivity|]. intros _. reflexivity.
  - eexists _, d. repeat (split; [reflexivity|]).
    split; [|intros [=]].
    exists rest.*2. rewrite <- vm_steps_clients.
    match goal with
    | H : vm_steps _ _ = _ |- _ => rewrite H
    end.
    rewrite fmap_app, <- app_assoc. reflexivity.
Qed.

Lemma nomad_restarts_in_reported_order_witness :
  exists vms d,
    reported (runRestart world_nomad_B_down ctx0 []).1 = [vms]
    /\ dialers (runRestart world_nomad_B_down ctx0 []).1 = [d]
    /\ restarts (runRestart world_nomad_B_down ctx0 []).1
       `prefix_of` vm_client d <$> vms
    /\ ((runRestart world_nomad_B_down ctx0 []).2 = Done tt ->
        restarts (runRestart world_nomad_B_down ctx0 []).1 = vm_client d <$> vms).
Proof.
  apply (nomad_restarts_in_reported_order world_nomad_B_down ctx0 _ _
           (pgtest "nomad" true));
    [reflexivity | reflexivity | reflexivity | right; vm_compute; lia].
Defined.

(** X2.  Each variant keeps to its own collaborators.  A nomad run never
    calls flaps (no EstablishForApp, no List, no GetLease) and never
    fetches a leader; a machines run never asks for the app status.  The
    version gate of the one platform is never asked in a run on the
    other. *)
Theorem variants_keep_to_their_collaborators (w : World) (ctx : Context)
    (t : trace) (r : outcome unit) (app : AppCompact) :
  runRestart w ctx [] = (t, r) ->
  resolved t = [app] ->
  (PlatformVersion app = "nomad" ->
   flaps_establishes t = [] /\ list_filters t = [] /\ lease_calls t = []
   /\ leader_calls t = [] /\ machines_gate_subjects t = [])
  /\ (PlatformVersion app = "machines" ->
      status_calls t = [] /\ nomad_gate_subjects t = []).
Proof.
  intros Hrun. apply runRestart_run in Hrun.
  run_cases; read_calls; intros [= <-];
    (split; intros Hp; [|try (repeat split; reflexivity; fail)]);
    try (repeat split; reflexivity); congruence.
Qed.

Lemma variants_keep_to_their_collaborators_witness :
  (flaps_establishes (runRestart world_nomad ctx0 []).1 = []
   /\ list_filters (runRestart world_nomad ctx0 []).1 = []
   /\ lease_calls (runRestart world_nomad ctx0 []).1 = []
   /\ leader_calls (runRestart world_nomad ctx0 []).1 = []
   /\ machines_gate_subjects (runRestart world_nomad ctx0 []).1 = [])
  /\ (status_calls (runRestart world_machines ctx0 []).1 = []
      /\ nomad_gate_subjects (runRestart world_machines ctx0 []).1 = []).
Proof.
  split.
  - apply (variants_keep_to_their_collaborators world_nomad ctx0 _
             (runRestart world_nomad ctx0 []).2 (pgtest "nomad" true));
      reflexivity.
  - apply (variants_keep_to_their_collaborators world_machines ctx0 _
             (runRestart world_machines ctx0 []).2 (pgtest "machines" true));
      reflexivity.
Defined.

(** Close a goal [l `prefix_of` k] between lists that are known. *)
Ltac known_prefix := first [reflexivity | eexists; reflexivity].

(** X3.  How often a run makes each of its calls, and with what.  The app
    is looked up exactly once, under the name in the context, and the
    version gate is asked at most once.  The leader is fetched at most
    once; flaps is established at most once, for the resolved app;
    machines are listed at most once, with the filter "started"; the app
    status is asked at most once, for the name of the resolved app and
    without completed allocations.  The agent is reached and a dialer
    asked for at most twice each, and at most once each on nomad.  Lease
    calls and restart commands are the calls made once per node. *)
Theorem single_calls_are_not_repeated (w : World) (ctx : Context)
    (t : trace) (r : outcome unit) :
  runRestart w ctx [] = (t, r) ->
  app_lookups t = [NameFromContext ctx]
  /\ length (resolved t) <= 1
  /\ list_filters t `prefix_of` ["started"]
  /\ length (leader_calls t) <= 1
  /\ length (listed t) <= 1
  /\ length (reported t) <= 1
  /\ length (gate_calls t) <= 1
  /\ length (agent_calls t) <= 2
  /\ length (tunnel_calls t) <= length (agent_calls t)
  /\ forall app,
      resolved t = [app] ->
      flaps_establishes t `prefix_of` [app]
      /\ status_calls t `prefix_of` [(Name app, false)]
      /\ (PlatformVersion app = "nomad" -> length (agent_calls t) <= 1).
Proof.
  intros Hrun. apply runRestart_run in Hrun.
  run_cases; read_calls; cbn [length];
    do 9 (split; [first [reflexivity | lia | known_prefix]|]);
    intros ? [= <-]; (split; [known_prefix|]); (split; [known_prefix|]);
    intros Hn; first [lia | congruence].
Qed.

Lemma single_calls_are_not_repeated_witness :
  app_lookups (runRestart world_machines ctx0 []).1 = [NameFromContext ctx0]
  /\ length (resolved (runRestart world_machines ctx0 []).1) <= 1
  /\ list_filters (runRestart world_machines ctx0 []).1 `prefix_of` ["started"]
  /\ length (leader_calls (runRestart world_machines ctx0 []).1) <= 1
  /\ length (listed (runRestart world_machines ctx0 []).1) <= 1
  /\ length (reported (runRestart world_machines ctx0 []).1) <= 1
  /\ length (gate_calls (runRestart world_machines ctx0 []).1) <= 1
  /\ length (agent_calls (runRestart world_machines ctx0 []).1) <= 2
  /\ length (tunnel_calls (runRestart world_machines ctx0 []).1)
     <= length (agent_calls (runRestart world_machines ctx0 []).1)
  /\ forall app,
      resolved (runRestart world_machines ctx0 []).1 = [app] ->
      flaps_establishes (runRestart world_machines ctx0 []).1 `prefix_of` [app]
      /\ status_calls (runRestart world_machines ctx0 []).1
         `prefix_of` [(Name app, false)]
      /\ (PlatformVersion app = "nomad" ->
          length (agent_calls (runRestart world_machines ctx0 []).1) <= 1).
Proof.
  apply (single_calls_are_not_repeated world_machines ctx0 _
           (runRestart world_machines ctx0 []).2).
  reflexivity.
Defined.

(** X4.  Every tunnel is asked for the organization of the resolved app,
    and through the agent client the run has just obtained: the clients
    the dialers are asked with are the clients the agent returned, in
    order. *)
Theorem tunnels_are_for_the_resolved_org (w : World) (ctx : Context)
    (t : trace) (r : outcome unit) (app : AppCompact) :
  runRestart w ctx [] = (t, r) ->
  resolved t = [app] ->
  Forall (fun q => q.2 = Slug (Organization app)) (dial_requests t)
  /\ (dial_requests t).*1 = agents t.
Proof.
  intros Hrun. apply runRestart_run in Hrun.
  run_cases; read_calls; intros [= <-];
    (split; [repeat constructor|reflexivity]).
Qed.

Lemma tunnels_are_for_the_resolved_org_witness :
  Forall (fun q => q.2 = Slug (Organization (pgtest "machines" true)))
         (dial_requests (runRestart world_machines ctx0 []).1)
  /\ (dial_requests (runRestart world_machines ctx0 []).1).*1
     = agents (runRestart world_machines ctx0 []).1
  /\ length (agents (runRestart world_machines ctx0 []).1) = 2.
Proof.
  split; [|split; [|reflexivity]];
    apply (tunnels_are_for_the_resolved_org world_machines ctx0 _
             (runRestart world_machines ctx0 []).2 (pgtest "machines" true));
    reflexivity.
Defined.

(** X5.  The version gate is asked with "0.0.20" for both minimum versions.
    On nomad it is asked about the resolved app.  On machines it is asked
    about the machine [fetchLeader] returned, whenever there is one, and
    [fetchLeader] is called for the resolved app with the first dialer the
    run built, whenever there is one. *)
Theorem version_gate_subject (w : World) (ctx : Context)
    (t : trace) (r : outcome unit) (app : AppCompact) :
  runRestart w ctx [] = (t, r) ->
  resolved t = [app] ->
  gate_calls t `prefix_of` [("0.0.20", "0.0.20")]
  /\ nomad_gate_subjects t `prefix_of` [app]
  /\ machines_gate_subjects t = leaders t
  /\ (PlatformVersion app = "machines" ->
      leader_calls t = (fun d => (app, d)) <$> take 1 (dialers t)).
Proof.
  intros Hrun. apply runRestart_run in Hrun.
  run_cases; read_calls; intros [= <-];
    do 3 (split; [first [reflexivity | known_prefix]|]);
    intros Hm; first [reflexivity | congruence].
Qed.

Lemma version_gate_subject_witness :
  gate_calls (runRestart world_old_machines ctx0 []).1
    `prefix_of` [("0.0.20", "0.0.20")]
  /\ nomad_gate_subjects (runRestart world_old_machines ctx0 []).1
     `prefix_of` [pgtest "machines" true]
  /\ machines_gate_subjects (runRestart world_old_machines ctx0 []).1
     = leaders (runRestart world_old_machines ctx0 []).1
  /\ (PlatformVersion (pgtest "machines" true) = "machines" ->
      leader_calls (runRestart world_old_machines ctx0 []).1
      = (fun d => (pgtest "machines" true, d))
          <$> take 1 (dialers (runRestart world_old_machines ctx0 []).1)).
Proof.
  apply (version_gate_subject world_old_machines ctx0 _
           (runRestart world_old_machines ctx0 []).2 (pgtest "machines" true));
    reflexivity.
Defined.

(** X6.  Leases are asked for the listed machines in the order of the
    listing, one call per machine and each for 40 seconds, up to the first
    refusal.  Either no call is refused, and then a lease was asked for
    every listed machine in turn; or the listing is a sequence of machines
    that were each granted a lease, then one machine that was refused, then
    machines that were not asked for at all.  A run that lists no machines
    asks for no lease. *)
Theorem leases_asked_in_listing_order (w : World) (ctx : Context)
    (t : trace) (r : outcome unit) :
  runRestart w ctx [] = (t, r) ->
  Forall (fun ttl => ttl = Some 40%Z) (lease_ttls t)
  /\ (listed t = [] -> lease_calls t = [])
  /\ forall out,
      listed t = [out] ->
      (lease_calls t).*1 `prefix_of` ID <$> out
      /\ (lease_calls t).*1 = (granted t).*1 ++ (refused t).*1
      /\ length (refused t) <= 1
      /\ ((refused t = [] /\ (lease_calls t).*1 = ID <$> out)
          \/ exists before machine rest e,
               out = before ++ machine :: rest
               /\ (granted t).*1 = ID <$> before
               /\ refused t = [(ID machine, e)]
               /\ (lease_calls t).*1 = ID <$> (before ++ [machine])).
Proof.
  intros Hrun. apply runRestart_run in Hrun.
  run_cases; read_calls;
    (split; [rewrite ?Forall_app, ?Forall_fmap;
             repeat first [apply Forall_true; reflexivity | constructor]|]);
    (split; [intros Hl; first [reflexivity | discriminate Hl]|]);
    intros out [= <-]; rewrite ?fmap_app, <- ?list_fmap_compose, ?app_nil_r;
    cbn [fmap list_fmap length fst];
    (split; [|split; [reflexivity|split; [lia|]]]).
  all: try (exists []; rewrite app_nil_r; reflexivity).
  all: try (left; split; reflexivity).
  - exists (ID <$> rest). rewrite <- app_assoc. reflexivity.
  - right. exists gr.*1, machine, rest, e0.
    rewrite fmap_app, <- !list_fmap_compose. repeat split; reflexivity.
Qed.

Lemma leases_asked_in_listing_order_witness :
  Forall (fun ttl => ttl = Some 40%Z)
         (lease_ttls (runRestart (world_lease_refused "B") ctx0 []).1)
  /\ (lease_calls (runRestart (world_lease_refused "B") ctx0 []).1).*1 = ["A"; "B"]
  /\ (lease_calls (runRestart (world_lease_refused "B") ctx0 []).1).*1
     `prefix_of` ID <$> [machineA; machineB; machineC]
  /\ (lease_calls (runRestart (world_lease_refused "B") ctx0 []).1).*1
     = (granted (runRestart (world_lease_refused "B") ctx0 []).1).*1
       ++ (refused (runRestart (world_lease_refused "B") ctx0 []).1).*1
  /\ length (refused (runRestart (world_lease_refused "B") ctx0 []).1) <= 1
  /\ ((refused (runRestart (world_lease_refused "B") ctx0 []).1 = []
       /\ (lease_calls (runRestart (world_lease_refused "B") ctx0 []).1).*1
          = ID <$> [machineA; machineB; machineC])
      \/ exists before machine rest e,
           [machineA; machineB; machineC] = before ++ machine :: rest
           /\ (granted (runRestart (world_lease_refused "B") ctx0 []).1).*1
              = ID <$> before
           /\ refused (runRestart (world_lease_refused "B") ctx0 []).1
              = [(ID machine, e)]
           /\ (lease_calls (runRestart (world_lease_refused "B") ctx0 []).1).*1
              = ID <$> (before ++ [machine])).
Proof.
  pose proof (leases_asked_in_listing_order (world_lease_refused "B") ctx0
                (runRestart (world_lease_refused "B") ctx0 []).1
                (runRestart (world_lease_refused "B") ctx0 []).2 eq_refl)
    as (Httl & _ & Hout).
  split; [exact Httl|]. split; [reflexivity|].
  apply (Hout [machineA; machineB; machineC]). reflexivity.
Defined.

Lemma length_remove_dups_le {A : Type} `{EqDecision A} (l : list A) :
  length (remove_dups l) <= length l.
Proof.
  induction l as [|x l IH]; [reflexivity|].
  cbn [remove_dups]. destruct (decide_rel elem_of x l); cbn [length]; lia.
Qed.

(** Every entry of the lease map is one of the entries stored. *)
Lemma lease_map_entries_stored (entries : list (string * Machine))
    (nonce : string) (machine : Machine) :
  lease_map entries !! nonce = Some machine -> (nonce, machine) ∈ entries.
Proof.
  intros Hlookup. apply lease_map_lookup in Hlookup as (i & Hi & _).
  exact (list_elem_of_lookup_2 _ _ _ Hi).
Qed.

(** X7.  The leased variant restarts no machine without a lease: every
    restart command of a machines run goes to the address of a machine
    that was listed and for which a lease was granted in this run.  The
    run sends at most as many restart commands as machines were listed. *)
Theorem restarted_machines_hold_a_lease (w : World) (ctx : Context)
    (t : trace) (r : outcome unit) (app : AppCompact) :
  range_ok w ->
  runRestart w ctx [] = (t, r) ->
  resolved t = [app] ->
  PlatformVersion app = "machines" ->
  (forall c,
      c ∈ restarts t ->
      exists out machine nonce,
        listed t = [out]
        /\ machine ∈ out
        /\ (ID machine, nonce) ∈ granted t
        /\ client_address c = bracketed (PrivateIP machine))
  /\ (forall out, listed t = [out] -> length (restarts t) <= length out).
Proof.
  intros Hrange Hrun Happ Hm. apply runRestart_run in Hrun.
  destruct (restarts t) as [|c0 cs] eqn:Hre.
  { split; [intros c Hc; apply elem_of_nil in Hc; destruct Hc|].
    intros out _. cbn. lia. }
  rewrite <- Hre.
  destruct (machines_loop_cases w ctx t r app Hrun Happ Hm)
    as (gr & d & hx & Hlisted & _ & Hgranted & _ & Hprefix & _).
  { right. rewrite Hre. cbn. lia. }
  split.
  - intros c Hc.
    destruct Hprefix as [k Hk].
    assert (Hin : c ∈ machine_client d
                        <$> (range_order w hx (lease_map (tokens gr))).*2)
      by (rewrite Hk; apply elem_of_app; left; exact Hc).
    apply list_elem_of_fmap in Hin as (machine & -> & Hin).
    apply list_elem_of_fmap in Hin as ([nonce machine'] & -> & Hin).
    rewrite (Hrange hx _) in Hin.
    apply elem_of_map_to_list, lease_map_entries_stored in Hin.
    unfold tokens in Hin.
    apply list_elem_of_fmap in Hin as (g & [= -> ->] & Hg).
    exists gr.*1, g.1, (Nonce (Data g.2)).
    split; [exact Hlisted|].
    split; [apply list_elem_of_fmap; exists g; auto|].
    split; [|reflexivity].
    rewrite Hgranted. apply list_elem_of_fmap. exists g. auto.
  - intros out Hout. rewrite Hlisted in Hout. injection Hout as <-.
    rewrite (prefix_length _ _ Hprefix), !length_fmap.
    rewrite (Permutation_length (Hrange hx _)), length_map_to_list.
    rewrite lease_map_size.
    rewrite (length_remove_dups_le (tokens gr).*1).
    unfold tokens. rewrite !length_fmap. reflexivity.
Qed.

Lemma restarted_machines_hold_a_lease_witness :
  range_ok world_same_token
  /\ listed (runRestart world_same_token ctx0 []).1 = [[machineA; machineB]]
  /\ length (restarts (runRestart world_same_token ctx0 []).1) <= 2
  /\ forall c,
      c ∈ restarts (runRestart world_same_token ctx0 []).1 ->
      exists out machine nonce,
        listed (runRestart world_same_token ctx0 []).1 = [out]
        /\ machine ∈ out
        /\ (ID machine, nonce) ∈ granted (runRestart world_same_token ctx0 []).1
        /\ client_address c = bracketed (PrivateIP machine).
Proof.
  pose proof (restarted_machines_hold_a_lease world_same_token ctx0
                (runRestart world_same_token ctx0 []).1
                (runRestart world_same_token ctx0 []).2
                (pgtest "machines" true)
                (range_ok_scripted _ _ _ _ _ _)) as H.
  destruct H as [Hholds Hcount];
    [vm_compute; reflexivity | vm_compute; reflexivity | reflexivity |].
  split; [apply range_ok_scripted|].
  split; [vm_compute; reflexivity|].
  split; [apply (Hcount [machineA; machineB]); vm_compute; reflexivity|].
  exact Hholds.
Defined.

Lemma string_app_assoc (a b c : string) : (a +:+ b) +:+ c = a +:+ (b +:+ c).
Proof.
  induction a as [|x a IH]; [reflexivity|].
  exact (f_equal (String x) IH).
Qed.

(** X8.  The error a run returns keeps the cause of the failed call.  Its
    message ends with the message of the cause.  For every call but the one
    that asks for the dialer, the error is the cause itself or wraps it, so
    that [Unwrap] gives the cause back; the error for a dialer that could
    not be built is made with [%s] and wraps nothing. *)
Theorem errors_keep_their_cause (w : World) (ctx : Context)
    (t : trace) (r : outcome unit) (ev : event) (c : error) :
  runRestart w ctx [] = (t, r) ->
  failures t = [(ev, c)] ->
  exists e,
    r = Fail e
    /\ (exists prefix, Error e = prefix +:+ Error c)
    /\ match ev with
       | EvAgentDialer _ _ _ => Unwrap e = None
       | _ => e = c \/ Unwrap e = Some c
       end.
Proof.
  intros Hrun. apply runRestart_run in Hrun.
  run_cases; read_history; intros Hf; try discriminate Hf;
    injection Hf as <- <-; eexists; (split; [reflexivity|]);
    (split;
     [ first [ exists ""; reflexivity
             | eexists; reflexivity
             | eexists; unfold Errorf_tunnel; cbn [Error];
               rewrite <- !string_app_assoc; reflexivity ]
     | first [ reflexivity | left; reflexivity | right; reflexivity ] ]).
Qed.

Lemma errors_keep_their_cause_witness :
  failures (runRestart (world_lease_refused "B") ctx0 []).1
  = [(EvFlapsGetLease "B" (Some 40%Z) (Fail (errorString "lease denied")),
      errorString "lease denied")]
  /\ exists e,
      (runRestart (world_lease_refused "B") ctx0 []).2 = Fail e
      /\ (exists prefix, Error e = prefix +:+ Error (errorString "lease denied"))
      /\ (e = errorString "lease denied"
          \/ Unwrap e = Some (errorString "lease denied")).
Proof.
  split; [reflexivity|].
  apply (errors_keep_their_cause (world_lease_refused "B") ctx0
           (runRestart (world_lease_refused "B") ctx0 []).1
           (runRestart (world_lease_refused "B") ctx0 []).2
           (EvFlapsGetLease "B" (Some 40%Z) (Fail (errorString "lease denied")))
           (errorString "lease denied"));
    reflexivity.
Defined.

Lemma complete_line_is_no_machine_line (d : Dialer)
    (entries : list (string * Machine)) :
  complete_line ∉ (machine_steps d entries).*1.
Proof.
  unfold machine_steps. rewrite <- list_fmap_compose.
  intros Hin. apply list_elem_of_fmap in Hin as (entry & Heq & _).
  discriminate Heq.
Qed.

Lemma complete_line_is_no_vm_line (d : Dialer) (vms : list AllocationStatus) :
  complete_line ∉ (vm_steps d vms).*1.
Proof.
  unfold vm_steps. rewrite <- list_fmap_compose.
  intros Hin. apply list_elem_of_fmap in Hin as (vm & Heq & _).
  discriminate Heq.
Qed.

(** X9.  "Restart complete" is printed by successful runs only, and is
    then the last thing the run does; a run on nomad or machines that
    returns nil has printed it as its last line. *)
Theorem restart_complete_only_on_success (w : World) (ctx : Context)
    (t : trace) (r : outcome unit) :
  runRestart w ctx [] = (t, r) ->
  (complete_line ∈ printed t ->
   r = Done tt /\ last t = Some (EvFprintf complete_line))
  /\ (r = Done tt ->
      forall app,
        resolved t = [app] ->
        PlatformVersion app = "nomad" \/ PlatformVersion app = "machines" ->
        last (printed t) = Some complete_line).
Proof.
  intros Hrun. apply runRestart_run in Hrun.
  run_cases;
    repeat match goal with
           | H : vm_steps ?d ?vms = _ |- _ =>
               pose proof (complete_line_is_no_vm_line d vms) as Hno;
               rewrite H in Hno; clear H
           | H : machine_steps ?d ?entries = _ |- _ =>
               pose proof (complete_line_is_no_machine_line d entries) as Hno;
               rewrite H in Hno; clear H
           end;
    try match goal with
        | |- context [restarted (vm_steps ?d ?vms)] =>
            pose proof (complete_line_is_no_vm_line d vms) as Hno
        | |- context [restarted (machine_steps ?d ?entries)] =>
            pose proof (complete_line_is_no_machine_line d entries) as Hno
        end;
    split.
  all: try (intros [=]; fail).
  all: try (read_calls; intros _ ? [= <-] [Hp|Hp]; first [congruence | read_last]).
  all: try (split; [reflexivity | read_last]).
  all: read_calls; intros Hin; exfalso.
  all: repeat first [ rewrite elem_of_app in Hin
                    | rewrite elem_of_cons in Hin
                    | rewrite elem_of_nil in Hin ].
  all: try rewrite fmap_app, fmap_cons, not_elem_of_app, not_elem_of_cons in Hno.
  all: repeat match goal with
              | H : _ \/ _ |- _ => destruct H as [H|H]
              | H : _ /\ _ |- _ => destruct H as [? ?]
              | H : False |- _ => destruct H
              end; try discriminate; try contradiction; try congruence.
Qed.

Lemma restart_complete_only_on_success_witness :
  (complete_line ∈ printed (runRestart world_nomad ctx0 []).1 ->
   (runRestart world_nomad ctx0 []).2 = Done tt
   /\ last (runRestart world_nomad ctx0 []).1 = Some (EvFprintf complete_line))
  /\ last (printed (runRestart world_nomad ctx0 []).1) = Some complete_line
  /\ complete_line ∉ printed (runRestart world_nomad_B_down ctx0 []).1.
Proof.
  pose proof (restart_complete_only_on_success world_nomad ctx0
                (runRestart world_nomad ctx0 []).1
                (runRestart world_nomad ctx0 []).2 eq_refl) as [Honly Hdone].
  pose proof (restart_complete_only_on_success world_nomad_B_down ctx0
                (runRestart world_nomad_B_down ctx0 []).1
                (runRestart world_nomad_B_down ctx0 []).2 eq_refl) as [Hdown _].
  split; [exact Honly|].
  split; [apply (Hdone eq_refl (pgtest "nomad" true)); [reflexivity|left; reflexivity]|].
  intros Hin. apply Hdown in Hin as [Hr _]. discriminate Hr.
Defined.

(** * The two variants on their own *)

(** Every command of a list of steps goes through the dialer [d]. *)
Ltac steps_through_one_dialer :=
  let HF := fresh "HF" in
  let Hbefore := fresh "Hbefore" in
  let Hs := fresh "Hs" in
  rewrite ?Forall_app, ?Forall_fmap;
  match goal with
  | H : vm_steps ?d ?vms = _ |- _ =>
      pose proof (vm_steps_dialer d vms) as HF; rewrite H in HF
  | H : machine_steps ?d ?entries = _ |- _ =>
      pose proof (machine_steps_dialer d entries) as HF; rewrite H in HF
  | |- context [vm_steps ?d ?vms] => pose proof (vm_steps_dialer d vms) as HF
  | |- context [machine_steps ?d ?entries] =>
      pose proof (machine_steps_dialer d entries) as HF
  end;
  rewrite ?Forall_app, ?Forall_cons in HF;
  try (destruct HF as (Hbefore & Hs & _); split;
       [|constructor; [cbn; congruence|constructor]]);
  match goal with
  | HF' : Forall _ ?l |- Forall _ ?l =>
      eapply Forall_impl; [exact HF'|]; intros ? ?; cbn; congruence
  end.

(** X10.  [restartMachinesCluster], called on any history, only adds to
    it.  Of its own it reaches the agent at most once and builds at most
    one dialer, and every restart command it sends goes through that
    dialer.  When the listing is empty it returns "no machines found"
    without having asked for a lease, reached the agent, built a dialer or
    sent a restart command. *)
Theorem restartMachinesCluster_on_its_own (w : World) (ctx : Context)
    (app : AppCompact) (h t : trace) (r : outcome unit) :
  restartMachinesCluster w ctx app h = (t, r) ->
  exists evs,
    t = h ++ evs
    /\ length (agent_calls evs) <= 1
    /\ length (tunnel_calls evs) <= 1
    /\ Forall (fun c => dialers evs = [client_dialer c]) (restarts evs)
    /\ (listed evs = [[]] ->
        r = Fail (errorString "no machines found")
        /\ lease_calls evs = [] /\ agent_calls evs = []
        /\ tunnel_calls evs = [] /\ restarts evs = []).
Proof.
  intros Hrun.
  destruct (restartMachinesCluster_run w ctx app h) as (evs & r' & Heq & Hshape).
  rewrite Heq in Hrun. injection Hrun as <- <-.
  exists evs. split; [reflexivity|].
  run_cases; read_history; cbn [length];
    do 2 (split; [lia|]);
    (split; [first [constructor | steps_through_one_dialer]|]);
    intros Hl; try discriminate Hl;
    try (injection Hl as Hl; first [ apply fmap_nil_inv in Hl; congruence
                                   | apply app_nil in Hl as [_ Hl];
                                     discriminate Hl ]).
  repeat split; reflexivity.
Qed.

Lemma restartMachinesCluster_on_its_own_witness :
  exists evs,
    (restartMachinesCluster world_machines ctx0 (pgtest "machines" true)
       [EvFprintf "earlier"]).1
    = [EvFprintf "earlier"] ++ evs
    /\ length (agent_calls evs) <= 1
    /\ length (tunnel_calls evs) <= 1
    /\ Forall (fun c => dialers evs = [client_dialer c]) (restarts evs)
    /\ (listed evs = [[]] ->
        (restartMachinesCluster world_machines ctx0 (pgtest "machines" true)
           [EvFprintf "earlier"]).2
        = Fail (errorString "no machines found")
        /\ lease_calls evs = [] /\ agent_calls evs = []
        /\ tunnel_calls evs = [] /\ restarts evs = []).
Proof.
  apply (restartMachinesCluster_on_its_own world_machines ctx0
           (pgtest "machines" true) [EvFprintf "earlier"]).
  reflexivity.
Defined.

(** X11.  [restartNomadCluster], called on any history, only adds to it.
    It asks once for the status of the app, without completed allocations;
    it reaches the agent at most once and builds at most one dialer, and
    every restart command goes through that dialer.  When the status
    reports no allocation it returns "no vms found" and has done nothing
    else. *)
Theorem restartNomadCluster_on_its_own (w : World) (ctx : Context)
    (app : AppCompact) (h t : trace) (r : outcome unit) :
  restartNomadCluster w ctx app h = (t, r) ->
  exists evs,
    t = h ++ evs
    /\ status_calls evs = [(Name app, false)]
    /\ length (agent_calls evs) <= 1
    /\ length (tunnel_calls evs) <= 1
    /\ Forall (fun c => dialers evs = [client_dialer c]) (restarts evs)
    /\ (reported evs = [[]] ->
        r = Fail (errorString "no vms found")
        /\ length evs = 1).
Proof.
  intros Hrun.
  destruct (restartNomadCluster_run w ctx app h) as (evs & r' & Heq & Hshape).
  rewrite Heq in Hrun. injection Hrun as <- <-.
  exists evs. split; [reflexivity|].
  run_cases; read_calls; cbn [length];
    (split; [reflexivity|]); do 2 (split; [lia|]);
    (split; [first [constructor | steps_through_one_dialer]|]);
    intros Hl; try discriminate Hl;
    try (injection Hl as Hl; congruence).
  split; reflexivity.
Qed.

Lemma restartNomadCluster_on_its_own_witness :
  exists evs,
    (restartNomadCluster world_empty_nomad ctx0 (pgtest "nomad" true)
       [EvFprintf "earlier"]).1
    = [EvFprintf "earlier"] ++ evs
    /\ status_calls evs = [(Name (pgtest "nomad" true), false)]
    /\ length (agent_calls evs) <= 1
    /\ length (tunnel_calls evs) <= 1
    /\ Forall (fun c => dialers evs = [client_dialer c]) (restarts evs)
    /\ (reported evs = [[]] ->
        (restartNomadCluster world_empty_nomad ctx0 (pgtest "nomad" true)
           [EvFprintf "earlier"]).2
        = Fail (errorString "no vms found")
        /\ length evs = 1).
Proof.
  apply (restartNomadCluster_on_its_own world_empty_nomad ctx0
           (pgtest "nomad" true) [EvFprintf "earlier"]).
  reflexivity.
Defined.

(** * The status command *)

Lemma appendRows_rows (f : ApiFields) (machines : list Machine)
    (rows : list (list string)) :
  appendRows f machines rows = rows ++ (machine_row f <$> machines).
Proof.
  revert rows. induction machines as [|machine rest IH]; intros rows.
  - cbn. rewrite app_nil_r. reflexivity.
  - cbn [appendRows fmap list_fmap]. rewrite IH, <- app_assoc. reflexivity.
Qed.

(** The runs of [renderMachineStatus], case by case. *)
Lemma renderMachineStatus_cases (f : ApiFields) (sw : StatusWorld)
    (app : AppCompact) (h : list status_event) :
  exists evs r,
    renderMachineStatus f sw app h = (h ++ evs, r)
    /\ ((exists e, evs = [SEvEstablishForApp app (Some e)] /\ r = Some e)
        \/ (exists e,
              evs = [SEvEstablishForApp app None; SEvListActive (Fail e)]
              /\ r = Some e)
        \/ (exists machines e,
              evs = [SEvEstablishForApp app None; SEvListActive (Done machines);
                     SEvVerticalTable "App" [app_row f app] app_cols (Some e)]
              /\ r = Some e)
        \/ (exists machines r4,
              evs = [SEvEstablishForApp app None; SEvListActive (Done machines);
                     SEvVerticalTable "App" [app_row f app] app_cols None;
                     SEvTable "" (machine_row f <$> machines) machine_cols r4]
              /\ r = None)).
Proof.
  unfold renderMachineStatus. cbv zeta.
  destruct (st_EstablishForApp sw h app) as [e|].
  { eexists _, _. split; [reflexivity|]. left. eauto. }
  destruct (st_ListActive sw _) as [machines|e].
  2: { eexists _, _. rewrite <- app_assoc. split; [reflexivity|].
       right. left. eauto. }
  destruct (render_VerticalTable sw _ "App" _ app_cols) as [e|].
  { eexists _, _. rewrite <- !app_assoc. split; [reflexivity|].
    right. right. left. eauto. }
  eexists _, _. rewrite <- !app_assoc. split; [reflexivity|].
  right. right. right. rewrite appendRows_rows. cbn [Datatypes.app]. eauto.
Qed.

(** X12.  A failed call of EstablishForApp, of ListActive or of the app
    table stops the status command: the failed call is the last call made
    and the only one that failed, its error is returned as it is, not
    wrapped, and the machines table is not rendered.  An error the command
    returns is always the error of such a call. *)
Theorem status_stops_at_the_first_error (f : ApiFields) (sw : StatusWorld)
    (app : AppCompact) (h t : list status_event) (r : option error) :
  renderMachineStatus f sw app h = (t, r) ->
  exists evs,
    t = h ++ evs
    /\ (forall ev e,
          (ev, e) ∈ status_failures evs ->
          r = Some e
          /\ last evs = Some ev
          /\ status_failures evs = [(ev, e)]
          /\ machine_tables evs = [])
    /\ (forall e, r = Some e -> exists ev, status_failures evs = [(ev, e)]).
Proof.
  intros Hrun.
  destruct (renderMachineStatus_cases f sw app h) as (evs & r' & Heq & Hcases).
  rewrite Heq in Hrun. injection Hrun as <- <-.
  exists evs. split; [reflexivity|].
  destruct Hcases as [(e' & -> & ->)|[(e' & -> & ->)
                     |[(machines & e' & -> & ->)|(machines & r4 & -> & ->)]]];
    cbn [status_failures status_failure omap list_omap]; split.
  all: try (intros ev e Hin; apply list_elem_of_singleton in Hin;
            injection Hin as -> ->; repeat split; reflexivity).
  all: try (intros e [= <-]; eexists; reflexivity).
  all: try (intros e [=]).
  all: intros ev e Hin; apply elem_of_nil in Hin; destruct Hin.
Qed.

Lemma status_stops_at_the_first_error_witness :
  exists evs,
    (renderMachineStatus fields0
       (status_scripted None (Fail broken_pipe) None None)
       (pgtest "machines" true) []).1 = [] ++ evs
    /\ (SEvListActive (Fail broken_pipe), broken_pipe) ∈ status_failures evs
    /\ (renderMachineStatus fields0
          (status_scripted None (Fail broken_pipe) None None)
          (pgtest "machines" true) []).2 = Some broken_pipe
    /\ last evs = Some (SEvListActive (Fail broken_pipe))
    /\ status_failures evs = [(SEvListActive (Fail broken_pipe), broken_pipe)]
    /\ machine_tables evs = [].
Proof.
  destruct (status_stops_at_the_first_error fields0
              (status_scripted None (Fail broken_pipe) None None)
              (pgtest "machines" true) []
              (renderMachineStatus fields0
                 (status_scripted None (Fail broken_pipe) None None)
                 (pgtest "machines" true) []).1
              (renderMachineStatus fields0
                 (status_scripted None (Fail broken_pipe) None None)
                 (pgtest "machines" true) []).2 eq_refl)
    as (evs & Hevs & Hfailed & _).
  exists evs. split; [exact Hevs|].
  assert (Heq : evs = [SEvEstablishForApp (pgtest "machines" true) None;
                       SEvListActive (Fail broken_pipe)])
    by (vm_compute in Hevs; symmetry; exact Hevs).
  assert (Hin : (SEvListActive (Fail broken_pipe), broken_pipe)
                ∈ status_failures evs)
    by (rewrite Heq; apply list_elem_of_singleton; reflexivity).
  split; [exact Hin|]. exact (Hfailed _ _ Hin).
Defined.

(** X13.  An error of the machines table is dropped: the status command
    returns nil exactly when it got as far as rendering the machines
    table, whatever the renderer answered. *)
Theorem status_drops_the_machines_table_error (f : ApiFields) (sw : StatusWorld)
    (app : AppCompact) (h t : list status_event) (r : option error) :
  renderMachineStatus f sw app h = (t, r) ->
  exists evs,
    t = h ++ evs
    /\ (r = None <-> length (machine_tables evs) = 1)
    /\ (forall table, table ∈ machine_tables evs -> r = None).
Proof.
  intros Hrun.
  destruct (renderMachineStatus_cases f sw app h) as (evs & r' & Heq & Hcases).
  rewrite Heq in Hrun. injection Hrun as <- <-.
  exists evs. split; [reflexivity|].
  destruct Hcases as [(e' & -> & ->)|[(e' & -> & ->)
                     |[(machines & e' & -> & ->)|(machines & r4 & -> & ->)]]];
    cbn; (split; [split; (discriminate || reflexivity)|]);
    intros table Hin; first [reflexivity | apply elem_of_nil in Hin; destruct Hin].
Qed.

Lemma status_drops_the_machines_table_error_witness :
  (renderMachineStatus fields0
     (status_scripted None (Done [machineA; machineB]) None (Some broken_pipe))
     (pgtest "machines" true) []).2 = None
  /\ exists evs,
      (renderMachineStatus fields0
         (status_scripted None (Done [machineA; machineB]) None (Some broken_pipe))
         (pgtest "machines" true) []).1 = [] ++ evs
      /\ ((renderMachineStatus fields0
             (status_scripted None (Done [machineA; machineB]) None
                              (Some broken_pipe))
             (pgtest "machines" true) []).2 = None
          <-> length (machine_tables evs) = 1)
      /\ (forall table,
             table ∈ machine_tables evs ->
             (renderMachineStatus fields0
                (status_scripted None (Done [machineA; machineB]) None
                                 (Some broken_pipe))
                (pgtest "machines" true) []).2 = None).
Proof.
  split; [reflexivity|].
  apply (status_drops_the_machines_table_error fields0
           (status_scripted None (Done [machineA; machineB]) None (Some broken_pipe))
           (pgtest "machines" true) []).
  reflexivity.
Defined.

(** X14.  When the status command renders its tables, the app table has
    the title "App" and one row of four fields under four columns, and the
    machines table has no title and one row for each machine listed, in the
    order of the listing, each of six fields under the six columns; with no
    machine listed the machines table is still rendered, with no row. *)
Theorem status_tables (f : ApiFields) (sw : StatusWorld)
    (app : AppCompact) (h t : list status_event) :
  renderMachineStatus f sw app h = (t, None) ->
  exists evs machines r4,
    t = h ++ evs
    /\ active evs = [machines]
    /\ app_tables evs = [("App", [app_row f app], app_cols, None)]
    /\ length (app_row f app) = length app_cols
    /\ machine_tables evs = [("", machine_row f <$> machines, machine_cols, r4)]
    /\ length (machine_row f <$> machines) = length machines
    /\ Forall (fun row => length row = length machine_cols)
              (machine_row f <$> machines)
    /\ (forall i machine,
           machines !! i = Some machine ->
           (machine_row f <$> machines) !! i = Some (machine_row f machine)).
Proof.
  intros Hrun.
  destruct (renderMachineStatus_cases f sw app h) as (evs & r & Heq & Hcases).
  rewrite Heq in Hrun. injection Hrun as <- ->.
  destruct Hcases as [(e' & _ & [=])|[(e' & _ & [=])
                     |[(machines & e' & _ & [=])|(machines & r4 & -> & _)]]].
  eexists _, machines, r4. split; [reflexivity|].
  do 4 (split; [reflexivity|]).
  split; [apply length_fmap|].
  split; [apply Forall_fmap, Forall_true; reflexivity|].
  intros i machine Hi. rewrite list_lookup_fmap, Hi. reflexivity.
Qed.

Lemma status_tables_witness :
  exists evs machines r4,
    (renderMachineStatus fields0 (status_scripted None (Done []) None None)
       (pgtest "machines" true) []).1 = [] ++ evs
    /\ active evs = [machines]
    /\ app_tables evs
       = [("App", [app_row fields0 (pgtest "machines" true)], app_cols, None)]
    /\ length (app_row fields0 (pgtest "machines" true)) = length app_cols
    /\ machine_tables evs
       = [("", machine_row fields0 <$> machines, machine_cols, r4)]
    /\ length (machine_row fields0 <$> machines) = length machines
    /\ Forall (fun row => length row = length machine_cols)
              (machine_row fields0 <$> machines)
    /\ (forall i machine,
           machines !! i = Some machine ->
           (machine_row fields0 <$> machines) !! i
           = Some (machine_row fields0 machine)).
Proof.
  apply (status_tables fields0 (status_scripted None (Done []) None None)
           (pgtest "machines" true) []).
  reflexivity.
Defined.
